(** * The streaming Excel splitter of [utils/excel_splitter.py]

    A shallow embedding of the class [ExcelSplitter] and of the functions
    around it.  The object's attributes are a record, Python dictionaries
    are insertion-ordered association lists, exceptions are carried by an
    outcome type, and the external collaborators (openpyxl, xlsxwriter,
    [group_manager], [generate_output_filename], [config]) are the fields of
    an environment record. *)

From Stdlib Require Import String Ascii ZArith List Bool Lia.
Import ListNotations.
Local Open Scope string_scope.
Local Open Scope Z_scope.

Set Implicit Arguments.

(** ** Python dictionaries keyed by strings

    A [dict] keeps its items in insertion order; assigning to a key that is
    present replaces the value in place, assigning to a new key appends. *)

Module Dict.

Definition dict (V : Type) := list (string * V).

Definition empty {V : Type} : dict V := [].

Fixpoint get {V : Type} (k : string) (d : dict V) : option V :=
  match d with
  | [] => None
  | (k', v) :: d' => if String.eqb k k' then Some v else get k d'
  end.

Definition mem {V : Type} (k : string) (d : dict V) : bool :=
  match get k d with Some _ => true | None => false end.

Fixpoint assign {V : Type} (k : string) (v : V) (d : dict V) : dict V :=
  match d with
  | [] => [(k, v)]
  | (k', v') :: d' =>
      if String.eqb k k' then (k', v) :: d' else (k', v') :: assign k v d'
  end.

Definition keys {V : Type} (d : dict V) : list string := map fst d.

Definition items {V : Type} (d : dict V) : list (string * V) := d.

End Dict.

Import Dict.

(** ** Data *)

Definition GroupId := string.

(** A cell as [iter_rows(values_only=True)] yields it: an empty cell, a
    boolean, a whole number or a text. *)
Inductive Cell : Type :=
| CNone
| CBool (b : bool)
| CInt (n : Z)
| CStr (s : string).

Definition Row := list Cell.

(** Python truthiness of a cell, as [if ... and city] tests it. *)
Definition truthy (c : Cell) : bool :=
  match c with
  | CNone => false
  | CBool b => b
  | CInt n => negb (n =? 0)
  | CStr s => negb (String.eqb s "")
  end.

(** Python's [==] on cells; [True == 1] and [False == 0]. *)
Definition cell_eqb (a b : Cell) : bool :=
  match a, b with
  | CNone, CNone => true
  | CStr s, CStr t => String.eqb s t
  | CInt n, CInt m => n =? m
  | CBool x, CBool y => Bool.eqb x y
  | CBool x, CInt m => (if x then 1 else 0) =? m
  | CInt n, CBool y => n =? (if y then 1 else 0)
  | _, _ => false
  end.

(** [set.add]: a value equal to a member is not added again. *)
Definition set_add (c : Cell) (s : list Cell) : list Cell :=
  if existsb (cell_eqb c) s then s else (s ++ [c])%list.

(** An exception, reduced to what the code reads of it: [str(e)]. *)
Record Exn : Type := mkExn { str : string }.

Inductive Outcome (A : Type) : Type :=
| Ok (a : A)
| Raise (e : Exn).
Arguments Ok {A} a.
Arguments Raise {A} e.

(** [KeyError(k)] of a failed dictionary subscript; its text is the quoted
    key. *)
Definition KeyError (k : string) : Exn := mkExn ("'" ++ k ++ "'").

(** The xlsxwriter workbook: its file name and whether [close] went through. *)
Record Workbook : Type := mkWorkbook {
  filename : string;
  closed : bool
}.

(** The worksheet "Veriler": the lines written so far, each with the row
    index it was written at. *)
Record Worksheet : Type := mkWorksheet {
  ws_name : string;
  lines : list (Z * Row)
}.

(** One entry of [output_files]. *)
Record FileDesc : Type := mkFileDesc {
  fd_filename : string;
  fd_path : string;
  row_count : Z
}.

(** Values of the dictionary that [run] returns. *)
Inductive Value : Type :=
| VBool (b : bool)
| VInt (n : Z)
| VStr (s : string)
| VFiles (d : dict FileDesc)
| VList (l : list Cell)
| VCounts (d : dict Z).

Definition RunResult := dict Value.

(** Calls that leave the process, in the order they were made. *)
Inductive Event : Type :=
| EvInit
| EvLoad (input_path : string)
| EvCloseInput
| EvLookup (city : Cell)
| EvGroupInfo (g : GroupId)
| EvFilename (g : GroupId)
| EvMkdir
| EvWorkbook (g : GroupId) (file_path : string)
| EvWriteRow (g : GroupId) (row_index : Z) (row : Row)
| EvClose (g : GroupId).

Definition is_lookup (e : Event) : bool :=
  match e with EvLookup _ => true | _ => false end.

(** ** The collaborators

    [get_groups_for_city] is asked once per row and may answer differently
    from one call to the next; its first argument is the number of lookups
    made before this one.  [load_workbook] stands for opening the file and
    reading the active sheet, first line included; [new_workbook] for
    [xlsxwriter.Workbook] and [add_worksheet]; [ws_write_row] for
    [write_row] on the sheet of a group. *)
Record Env (Info : Type) : Type := mkEnv {
  ensure_initialized : Outcome unit;
  load_workbook : string -> Outcome (list Row);
  input_close : Outcome unit;
  get_groups_for_city : nat -> Cell -> Outcome (list GroupId);
  get_group_info : GroupId -> Outcome Info;
  generate_output_filename : Info -> Outcome string;
  OUTPUT_DIR : string;
  mkdir : Outcome unit;
  new_workbook : GroupId -> string -> Outcome unit;
  ws_write_row : GroupId -> Z -> Row -> Outcome unit;
  wb_close : GroupId -> Outcome unit
}.

(** ** The object

    The attributes of [ExcelSplitter], and with them [calls]: not an
    attribute of the Python object but the record of the calls made to the
    collaborators so far. *)

Record ExcelSplitter : Type := mkSplitter {
  input_path : string;
  headers : list string;
  writers : dict Workbook;
  sheets : dict Worksheet;
  row_counts : dict Z;
  matched_rows : Z;
  unmatched_cities : list Cell;
  calls : list Event
}.

(** [ExcelSplitter.__init__]. *)
Definition init (input_path : string) (headers : list string) : ExcelSplitter :=
  {| input_path := input_path;
     headers := headers;
     writers := empty;
     sheets := empty;
     row_counts := empty;
     matched_rows := 0;
     unmatched_cities := [];
     calls := [] |}.

Definition n_lookups (s : ExcelSplitter) : nat :=
  length (filter is_lookup (calls s)).

(** ** Computations on the object that may raise

    An exception leaves the attributes as they were when it was raised. *)

Definition M (A : Type) : Type := ExcelSplitter -> Outcome A * ExcelSplitter.

Definition ret {A : Type} (a : A) : M A := fun s => (Ok a, s).

Definition bind {A B : Type} (c : M A) (k : A -> M B) : M B :=
  fun s =>
    match c s with
    | (Ok a, s') => k a s'
    | (Raise e, s') => (Raise e, s')
    end.

Notation "x <- c ;; k" := (bind c (fun x => k))
  (at level 61, c at next level, right associativity).
Notation "c ;;; k" := (bind c (fun _ => k))
  (at level 61, right associativity).

Definition raise {A : Type} (e : Exn) : M A := fun s => (Raise e, s).

Definition modify (f : ExcelSplitter -> ExcelSplitter) : M unit :=
  fun s => (Ok tt, f s).

Definition gets {A : Type} (f : ExcelSplitter -> A) : M A :=
  fun s => (Ok (f s), s).

(** [try: c  except Exception as e: ...] with the handler left to the caller. *)
Definition attempt {A : Type} (c : M A) : M (Outcome A) :=
  fun s => let (o, s') := c s in (Ok o, s').

(** Assignments to the attributes. *)
Definition with_writers (f : dict Workbook -> dict Workbook) (s : ExcelSplitter) :=
  mkSplitter (input_path s) (headers s) (f (writers s)) (sheets s)
    (row_counts s) (matched_rows s) (unmatched_cities s) (calls s).

Definition with_sheets (f : dict Worksheet -> dict Worksheet) (s : ExcelSplitter) :=
  mkSplitter (input_path s) (headers s) (writers s) (f (sheets s))
    (row_counts s) (matched_rows s) (unmatched_cities s) (calls s).

Definition with_row_counts (f : dict Z -> dict Z) (s : ExcelSplitter) :=
  mkSplitter (input_path s) (headers s) (writers s) (sheets s)
    (f (row_counts s)) (matched_rows s) (unmatched_cities s) (calls s).

Definition with_matched_rows (f : Z -> Z) (s : ExcelSplitter) :=
  mkSplitter (input_path s) (headers s) (writers s) (sheets s)
    (row_counts s) (f (matched_rows s)) (unmatched_cities s) (calls s).

Definition with_unmatched_cities (f : list Cell -> list Cell) (s : ExcelSplitter) :=
  mkSplitter (input_path s) (headers s) (writers s) (sheets s)
    (row_counts s) (matched_rows s) (f (unmatched_cities s)) (calls s).

Definition with_calls (f : list Event -> list Event) (s : ExcelSplitter) :=
  mkSplitter (input_path s) (headers s) (writers s) (sheets s)
    (row_counts s) (matched_rows s) (unmatched_cities s) (f (calls s)).

(** A call to a collaborator: it is recorded, then returns or raises. *)
Definition call {A : Type} (ev : Event) (o : Outcome A) : M A :=
  fun s => (o, with_calls (fun l => (l ++ [ev])%list) s).

(** [d[k]], raising [KeyError] when [k] is missing. *)
Definition subscript {V : Type} (d : ExcelSplitter -> dict V) (k : string) : M V :=
  fun s =>
    match get k (d s) with
    | Some v => (Ok v, s)
    | None => (Raise (KeyError k), s)
    end.

(** [for x in xs: body(x)]. *)
Fixpoint for_each {A : Type} (xs : list A) (body : A -> M unit) : M unit :=
  match xs with
  | [] => ret tt
  | x :: xs' => body x ;;; for_each xs' body
  end.

(** Whether a path is absolute: it starts with [/]. *)
Definition is_absolute (name : string) : bool :=
  match name with
  | String c _ => Ascii.eqb c "/"%char
  | EmptyString => false
  end.

(** Joining a directory and a file name ([dir / name]: an absolute [name]
    replaces [dir]), and the last component of a path ([Path.name]), for
    paths written with [/]. *)
Definition path_join (dir name : string) : string :=
  if is_absolute name then name else dir ++ "/" ++ name.

Fixpoint path_name_from (acc : string) (p : string) : string :=
  match p with
  | EmptyString => acc
  | String c p' =>
      if Ascii.eqb c "/"%char then path_name_from p' p'
      else path_name_from acc p'
  end.

Definition path_name (p : string) : string := path_name_from p p.

(** ** The methods *)

Section Methods.

Variable Info : Type.
Variable env : Env Info.

(** [_ensure_group_writer] (lines 38-66). *)
Definition _ensure_group_writer (group_id : GroupId) : M unit :=
  fun s =>
    if mem group_id (writers s) then (Ok tt, s)
    else
      (group_info <- call (EvGroupInfo group_id) (get_group_info env group_id) ;;
       fname <- call (EvFilename group_id) (generate_output_filename env group_info) ;;
       call EvMkdir (mkdir env) ;;;
       let file_path := path_join (OUTPUT_DIR env) fname in
       call (EvWorkbook group_id file_path) (new_workbook env group_id file_path) ;;;
       hdr <- gets (fun s => map CStr (headers s)) ;;
       call (EvWriteRow group_id 0 hdr) (ws_write_row env group_id 0 hdr) ;;;
       modify (with_writers (assign group_id (mkWorkbook file_path false))) ;;;
       modify (with_sheets (assign group_id (mkWorksheet "Veriler" [(0, hdr)]))) ;;;
       modify (with_row_counts (assign group_id 1))) s.

(** [ws.write_row(row_index, 0, row)] on the sheet of [g]. *)
Definition write_row (g : GroupId) (ws : Worksheet) (row_index : Z) (row : Row) : M unit :=
  call (EvWriteRow g row_index row) (ws_write_row env g row_index row) ;;;
  modify (with_sheets
            (assign g (mkWorksheet (ws_name ws) (lines ws ++ [(row_index, row)])%list))).

(** The key of a row: [row[1] if len(row) > 1 else None]. *)
Definition city_of (row : Row) : Cell :=
  if (1 <? Z.of_nat (length row)) then nth 1 row CNone else CNone.

(** The body of the loop of [_process_row] (lines 80-85). *)
Definition dispatch (row : Row) (g : GroupId) : M unit :=
  _ensure_group_writer g ;;;
  ws <- subscript sheets g ;;
  row_index <- subscript row_counts g ;;
  write_row g ws row_index row ;;;
  c <- subscript row_counts g ;;
  modify (with_row_counts (assign g (c + 1))) ;;;
  modify (with_matched_rows (fun m => m + 1)).

(** [not groups]. *)
Definition is_empty {A : Type} (l : list A) : bool :=
  match l with [] => true | _ => false end.

(** [_process_row] (lines 71-85). *)
Definition _process_row (row : Row) : M unit :=
  let city := city_of row in
  n <- gets n_lookups ;;
  groups <- call (EvLookup city) (get_groups_for_city env n city) ;;
  (if is_empty groups && truthy city
   then modify (with_unmatched_cities (set_add city))
   else ret tt) ;;;
  for_each groups (dispatch row).

(** The loop of [run] (lines 100-104); it returns [processed_rows]. *)
Fixpoint row_loop (rows : list Row) (processed_rows : Z) : M Z :=
  match rows with
  | [] => ret processed_rows
  | row :: rows' =>
      _process_row row ;;;
      row_loop rows' (processed_rows + 1)
  end.

(** Marking the workbook of [g] as closed. *)
Definition mark_closed (g : GroupId) (wb : Workbook) : M unit :=
  modify (with_writers (assign g (mkWorkbook (filename wb) true))).

(** The loop of [_finalize] (lines 127-141) over the items of [writers]. *)
Fixpoint close_loop (items : list (GroupId * Workbook))
    (output_files : dict FileDesc) : M (dict FileDesc) :=
  match items with
  | [] => ret output_files
  | (group_id, wb) :: items' =>
      r <- attempt
             (call (EvClose group_id) (wb_close env group_id) ;;;
              mark_closed group_id wb ;;;
              let ws_path := filename wb in
              c <- subscript row_counts group_id ;;
              ret (mkFileDesc (path_name ws_path) ws_path (c - 1))) ;;
      match r with
      | Ok d => close_loop items' (assign group_id d output_files)
      | Raise _ => close_loop items' output_files
      end
  end.

(** [_finalize] (lines 124-150). *)
Definition _finalize (processed_rows : Z) : M RunResult :=
  ws <- gets writers ;;
  output_files <- close_loop (items ws) empty ;;
  s <- gets (fun s => s) ;;
  ret [ ("success", VBool true);
        ("total_rows", VInt processed_rows);
        ("matched_rows", VInt (matched_rows s));
        ("output_files", VFiles output_files);
        ("unmatched_cities", VList (unmatched_cities s));
        ("stats", VCounts (row_counts s)) ].

(** The dictionary built by the handler of [run] (lines 114-119). *)
Definition failure (e : Exn) : RunResult :=
  [ ("success", VBool false);
    ("error", VStr (str e));
    ("total_rows", VInt 0);
    ("output_files", VFiles empty) ].

(** The [try] block of [run] (lines 93-110). *)
Definition run_try : M RunResult :=
  call EvInit (ensure_initialized env) ;;;
  path <- gets input_path ;;
  ws <- call (EvLoad path) (load_workbook env path) ;;
  processed_rows <- row_loop (skipn 1 ws) 0 ;;
  call EvCloseInput (input_close env) ;;;
  _finalize processed_rows.

(** [run] (lines 91-119): it always returns a dictionary. *)
Definition run (s : ExcelSplitter) : RunResult * ExcelSplitter :=
  match run_try s with
  | (Ok r, s') => (r, s')
  | (Raise e, s') => (failure e, s')
  end.

(** [split_excel_by_groups] (lines 158-160). *)
Definition split_excel_by_groups (input_path : string) (headers : list string)
  : RunResult :=
  fst (run (init input_path headers)).

(** [split_excel_by_groups_sync] (lines 164-166) runs the same coroutine to
    its end. *)
Definition split_excel_by_groups_sync (input_path : string)
    (headers : list string) : RunResult :=
  split_excel_by_groups input_path headers.

End Methods.

(** ** Reading the returned dictionary *)

Definition succeeded (r : RunResult) : Prop := get "success" r = Some (VBool true).

(** The cursor of a group, as a number of data rows: [row_counts[g] - 1], and
    0 for a group that has no writer yet. *)
Definition written (s : ExcelSplitter) (g : GroupId) : Z :=
  match get g (row_counts s) with
  | Some c => c - 1
  | None => 0
  end.

(** The attributes after the three assignments that end
    [_ensure_group_writer]. *)
Definition registered (g : GroupId) (file_path : string) (s : ExcelSplitter)
  : ExcelSplitter :=
  with_row_counts (assign g 1)
    (with_sheets (assign g (mkWorksheet "Veriler" [(0, map CStr (headers s))]))
       (with_writers (assign g (mkWorkbook file_path false)) s)).

(** The attributes after some more calls to collaborators. *)
Definition logged (evs : list Event) (s : ExcelSplitter) : ExcelSplitter :=
  with_calls (fun l => (l ++ evs)%list) s.

(** The data lines of a sheet: those below the header. *)
Definition data_lines (ws : Worksheet) : list (Z * Row) := skipn 1 (lines ws).

(** The three dictionaries have the same keys, and a group's cursor is the
    number of lines its sheet holds. *)
Record consistent (s : ExcelSplitter) : Prop := {
  cons_counts : forall g, mem g (row_counts s) = mem g (writers s);
  cons_sheets : forall g, mem g (sheets s) = mem g (writers s);
  cons_lines : forall g ws c,
      get g (sheets s) = Some ws -> get g (row_counts s) = Some c ->
      c = Z.of_nat (length (data_lines ws)) + 1 /\ lines ws <> []
}.

(** The attributes after one row has been written to the sheet of [g], which
    held [ws] and had its cursor at [c]. *)
Definition appended (g : GroupId) (ws : Worksheet) (c : Z) (row : Row)
    (s : ExcelSplitter) : ExcelSplitter :=
  with_matched_rows (fun m => m + 1)
    (with_row_counts (assign g (c + 1))
       (with_sheets
          (assign g (mkWorksheet (ws_name ws) (lines ws ++ [(c, row)])%list))
          (logged [EvWriteRow g c row] s))).

(** The groups the resolver gives for a row when it is the lookup number [n];
    no group when the lookup raises. *)
Definition resolved {Info : Type} (env : Env Info) (n : nat) (row : Row)
  : list GroupId :=
  match get_groups_for_city env n (city_of row) with
  | Ok gs => gs
  | Raise _ => []
  end.

Definition contains (g : GroupId) (gs : list GroupId) : bool :=
  existsb (String.eqb g) gs.

(** The number of rows whose resolved groups contain [g], the first row being
    lookup number [n]. *)
Fixpoint rows_resolving_to {Info : Type} (env : Env Info) (g : GroupId)
    (n : nat) (rows : list Row) : Z :=
  match rows with
  | [] => 0
  | row :: rows' =>
      (if contains g (resolved env n row) then 1 else 0)
      + rows_resolving_to env g (S n) rows'
  end.

(** The number of times [g] is listed by the resolver over the rows. *)
Fixpoint listings {Info : Type} (env : Env Info) (g : GroupId)
    (n : nat) (rows : list Row) : Z :=
  match rows with
  | [] => 0
  | row :: rows' =>
      Z.of_nat (count_occ string_dec (resolved env n row) g)
      + listings env g (S n) rows'
  end.

(** The number of destination writes the rows ask for. *)
Fixpoint destinations {Info : Type} (env : Env Info) (n : nat) (rows : list Row)
  : Z :=
  match rows with
  | [] => 0
  | row :: rows' =>
      Z.of_nat (length (resolved env n row)) + destinations env (S n) rows'
  end.

(** The attributes after the workbook [wb] of [g] has been closed. *)
Definition closed_at (g : GroupId) (wb : Workbook) (s : ExcelSplitter)
  : ExcelSplitter :=
  with_writers (assign g (mkWorkbook (filename wb) true)) (logged [EvClose g] s).

(** The entry of [output_files] for a workbook whose cursor is at [c]. *)
Definition descriptor (wb : Workbook) (c : Z) : FileDesc :=
  mkFileDesc (path_name (filename wb)) (filename wb) (c - 1).

(** What the loop of [_finalize] leaves alone: it touches [writers] and
    [calls] only. *)
Definition same_counters (s s' : ExcelSplitter) : Prop :=
  row_counts s' = row_counts s /\ sheets s' = sheets s /\
  matched_rows s' = matched_rows s /\
  unmatched_cities s' = unmatched_cities s /\ n_lookups s' = n_lookups s.

(** A relation between the attributes before and after a computation,
    whatever its outcome. *)
Definition relates {A : Type} (R : ExcelSplitter -> ExcelSplitter -> Prop)
    (c : M A) : Prop :=
  forall s o s', c s = (o, s') -> R s s'.

(** ** Sample collaborators

    The sheet and the answers of the three-row scenario, and collaborators
    built around them; [load], [groups], [write_ok] and [close_ok] say where
    they fail. *)

Definition sample_headers : list string := ["Id"; "City"; "Value"].

Definition sample_sheet : list Row :=
  [ [CStr "Id"; CStr "City"; CStr "Value"];
    [CInt 1; CStr "Paris"; CInt 10];
    [CInt 2; CStr "Lagos"; CInt 5];
    [CInt 3; CStr "Paris"; CInt 7] ].

Definition sample_groups (n : nat) (city : Cell) : Outcome (list GroupId) :=
  match n with
  | 0%nat => Ok ["EU"]
  | 1%nat => Ok []
  | 2%nat => Ok ["EU"; "VIP"]
  | _ => Ok []
  end.

Definition sample_env (load : string -> Outcome (list Row))
    (groups : nat -> Cell -> Outcome (list GroupId))
    (write_ok : GroupId -> Z -> bool) (close_ok : GroupId -> bool)
  : Env string :=
  {| ensure_initialized := Ok tt;
     load_workbook := load;
     input_close := Ok tt;
     get_groups_for_city := groups;
     get_group_info := fun g => Ok g;
     generate_output_filename := fun info => Ok (info ++ ".xlsx");
     OUTPUT_DIR := "out";
     mkdir := Ok tt;
     new_workbook := fun _ _ => Ok tt;
     ws_write_row := fun g i _ =>
       if write_ok g i then Ok tt else Raise (mkExn "disk full");
     wb_close := fun g =>
       if close_ok g then Ok tt else Raise (mkExn "cannot close") |}.

(** Every collaborator answers. *)
Definition scenario_env : Env string :=
  sample_env (fun _ => Ok sample_sheet) sample_groups
    (fun _ _ => true) (fun _ => true).

(** The first data row cannot be written to the sheet of "EU". *)
Definition disk_full_env : Env string :=
  sample_env (fun _ => Ok sample_sheet) sample_groups
    (fun g i => negb (String.eqb g "EU" && (i =? 1))) (fun _ => true).

(** The workbook of "EU" cannot be closed. *)
Definition stuck_close_env : Env string :=
  sample_env (fun _ => Ok sample_sheet) sample_groups
    (fun _ _ => true) (fun g => negb (String.eqb g "EU")).

(** There is no input file. *)
Definition no_file_env : Env string :=
  sample_env
    (fun p => Raise (mkExn ("[Errno 2] No such file or directory: '" ++ p ++ "'")))
    sample_groups (fun _ _ => true) (fun _ => true).

(** The lookup times out; [str(asyncio.TimeoutError())] is the empty text. *)
Definition timeout_env : Env string :=
  sample_env (fun _ => Ok sample_sheet) (fun _ _ => Raise (mkExn ""))
    (fun _ _ => true) (fun _ => true).

(** A sheet whose only data row has one cell, and a resolver that sends
    every key, a missing one too, to a catch-all group. *)
Definition short_row_sheet : list Row := [ [CStr "Id"]; [CInt 7] ].

Definition catch_all_env : Env string :=
  sample_env (fun _ => Ok short_row_sheet) (fun _ _ => Ok ["ALL"])
    (fun _ _ => true) (fun _ => true).

(** A resolver that knows no group at all. *)
Definition no_group_env : Env string :=
  sample_env (fun _ => Ok short_row_sheet) (fun _ _ => Ok [])
    (fun _ _ => true) (fun _ => true).

(** The attributes of a splitter that has dispatched the three rows of the
    scenario. *)
Definition after_rows : ExcelSplitter :=
  snd (row_loop stuck_close_env (skipn 1 sample_sheet) 0
         (init "in.xlsx" sample_headers)).

(** The collaborators of the writer pool never fail. *)
Definition writers_reliable {Info : Type} (env : Env Info) : Prop :=
  (forall g, exists info, get_group_info env g = Ok info) /\
  (forall info, exists f, generate_output_filename env info = Ok f) /\
  mkdir env = Ok tt /\
  (forall g p, new_workbook env g p = Ok tt) /\
  (forall g i row, ws_write_row env g i row = Ok tt) /\
  (forall g, wb_close env g = Ok tt).

(** ** What the sheets, the counters and the record of calls hold *)

(** Lines numbered from [start] on. *)
Fixpoint numbered (start : Z) (rows : list Row) : list (Z * Row) :=
  match rows with
  | [] => []
  | row :: rows' => (start, row) :: numbered (start + 1) rows'
  end.

(** The rows of the sheet of [g], below its header; none when [g] has no
    sheet. *)
Definition sheet_rows (s : ExcelSplitter) (g : GroupId) : list Row :=
  match get g (sheets s) with
  | Some ws => map snd (data_lines ws)
  | None => []
  end.

(** Every sheet is the header line at index 0 followed by its rows at the
    indices 1, 2, 3, ... *)
Definition sheets_well_formed (s : ExcelSplitter) : Prop :=
  forall g ws, get g (sheets s) = Some ws ->
    lines ws = (0, map CStr (headers s)) :: numbered 1 (map snd (data_lines ws)).

(** The rows that go to [g], in the order of the input, a row as many times
    as the resolver lists [g] for it; the first row is lookup number [n]. *)
Fixpoint rows_for {Info : Type} (env : Env Info) (g : GroupId)
    (n : nat) (rows : list Row) : list Row :=
  match rows with
  | [] => []
  | row :: rows' =>
      (repeat row (count_occ string_dec (resolved env n row) g)
       ++ rows_for env g (S n) rows')%list
  end.

(** The events of the writer pool. *)
Definition pool_event (ev : Event) : bool :=
  match ev with
  | EvGroupInfo _ | EvFilename _ | EvMkdir | EvWorkbook _ _ | EvWriteRow _ _ _ => true
  | _ => false
  end.

Definition is_close (ev : Event) : bool :=
  match ev with EvClose _ => true | _ => false end.

(** The sum of [c - 1] over the cursors [c] of a dictionary. *)
Fixpoint rows_written (d : dict Z) : Z :=
  match d with
  | [] => 0
  | (_, c) :: d' => (c - 1) + rows_written d'
  end.

(** No workbook has been closed, nor asked to close. *)
Definition nothing_closed (s : ExcelSplitter) : Prop :=
  (forall g wb, get g (writers s) = Some wb -> closed wb = false) /\
  (forall ev, In ev (calls s) -> is_close ev = false).

(** The keys recorded as unmatched by the rows, added to [acc]; the first
    row is lookup number [n]. *)
Fixpoint unmatched_after {Info : Type} (env : Env Info) (n : nat)
    (rows : list Row) (acc : list Cell) : list Cell :=
  match rows with
  | [] => acc
  | row :: rows' =>
      unmatched_after env (S n) rows'
        (if is_empty (resolved env n row) && truthy (city_of row)
         then set_add (city_of row) acc else acc)
  end.

(** No two members are equal in the sense of [==]. *)
Fixpoint distinct_cells (l : list Cell) : bool :=
  match l with
  | [] => true
  | c :: l' => negb (existsb (cell_eqb c) l') && distinct_cells l'
  end.

(** Consistency and well-formedness together. *)
Definition sound (s : ExcelSplitter) : Prop :=
  consistent s /\ sheets_well_formed s.


(** [matched_rows] is the sum of the rows written over all groups. *)
Definition tally (s : ExcelSplitter) : Prop :=
  consistent s /\ matched_rows s = rows_written (row_counts s).

(** Cursors at the end of a row: every group that has a writer has been
    written to. *)
Definition all_written (s : ExcelSplitter) : Prop :=
  forall g c, get g (row_counts s) = Some c -> 2 <= c.

(** The lookups made so far. *)
Definition lookups (s : ExcelSplitter) : list Event :=
  filter is_lookup (calls s).

(** The keys of [writers] are pairwise different. *)
Definition unique_writers (s : ExcelSplitter) : Prop := NoDup (keys (writers s)).

(** ** The handler loader of [utils/handler_loader.py]

    The file system, pathlib, the import machinery and aiogram are
    collaborators: [join_path] is the [/] of pathlib, [relative_to] is
    [Path.relative_to] (it raises for a path that is not under the other),
    [path_exists] is [Path.exists], [glob_py] gives the names that
    [dir.glob("*.py")] yields, [exec_module] builds and runs the module of a
    file ([None] when there is no spec or no loader), [include_router] is
    [Dispatcher.include_router].  Logging, [_log_summary] and the module
    names of [_generate_module_name], which only serve the log and
    [sys.modules], are left out. *)

Record HandlerFile : Type := mkHandlerFile {
  file_dir : string;
  file_name : string
}.

(** What [module.router] is: a [Router], or something else. *)
Inductive RouterAttr : Type :=
| IsRouter (router_id : string)
| NotRouter.

(** A module, reduced to its attribute [router], if it has one. *)
Record PyModule : Type := mkPyModule { router : option RouterAttr }.

Record LoaderEnv : Type := mkLoaderEnv {
  resolve : string -> string;
  join_path : string -> string -> string;
  relative_to : string -> string -> Outcome string;
  path_exists : string -> Outcome bool;
  glob_py : string -> Outcome (list string);
  exec_module : HandlerFile -> Outcome (option PyModule);
  include_router : string -> string -> Outcome unit
}.

(** [LoadResult] (lines 31-38). *)
Record LoadResult : Type := mkLoadResult {
  loaded : Z;
  failed : Z;
  skipped : Z;
  scanned : Z;
  errors : list string
}.

Definition new_LoadResult : LoadResult := mkLoadResult 0 0 0 0 [].

(** [LoadResult.to_dict] (lines 40-49). *)
Definition to_dict (result : LoadResult) : dict Value :=
  [ ("loaded", VInt (loaded result));
    ("failed", VInt (failed result));
    ("skipped", VInt (skipped result));
    ("total_files", VInt (scanned result));
    ("errors", VList (map CStr (errors result)));
    ("loaded_handlers", VList []) ].

(** The result being filled, and, with it, what has been done to the
    outside: the files handed to the import machinery and the routers
    included, each with the dispatcher it went to. *)
Record Loading : Type := mkLoading {
  result : LoadResult;
  imported : list HandlerFile;
  included : list (string * string)
}.

Definition new_Loading : Loading := mkLoading new_LoadResult [] [].

Definition with_result (f : LoadResult -> LoadResult) (st : Loading) : Loading :=
  mkLoading (f (result st)) (imported st) (included st).

Definition add_loaded (r : LoadResult) : LoadResult :=
  mkLoadResult (loaded r + 1) (failed r) (skipped r) (scanned r) (errors r).

Definition add_failed (r : LoadResult) : LoadResult :=
  mkLoadResult (loaded r) (failed r + 1) (skipped r) (scanned r) (errors r).

Definition add_skipped (r : LoadResult) : LoadResult :=
  mkLoadResult (loaded r) (failed r) (skipped r + 1) (scanned r) (errors r).

Definition add_scanned (r : LoadResult) : LoadResult :=
  mkLoadResult (loaded r) (failed r) (skipped r) (scanned r + 1) (errors r).

Definition add_error (msg : string) (r : LoadResult) : LoadResult :=
  mkLoadResult (loaded r) (failed r) (skipped r) (scanned r)
    (errors r ++ [msg])%list.

(** [HandlerLoader] and its [__init__] (lines 57-67). *)
Record HandlerLoader : Type := mkHandlerLoader {
  dispatcher : string;
  base_dir : string;
  handler_dirs : list string
}.

Definition new_HandlerLoader (env : LoaderEnv) (dispatcher : string)
    (base_path : string) (handler_dirs : option (list string)) : HandlerLoader :=
  mkHandlerLoader dispatcher (resolve env base_path)
    (match handler_dirs with
     | Some (d :: ds) => d :: ds
     | _ => ["commands"; "callbacks"; "admin"; "states"]
     end).

(** [name.startswith("_")]. *)
Definition starts_with_underscore (name : string) : bool :=
  match name with
  | String c _ => Ascii.eqb c "_"%char
  | EmptyString => false
  end.

(** [_import_module_safely] (lines 186-208): the module, or [None] when
    there is no spec or anything raises. *)
Definition _import_module_safely (env : LoaderEnv) (file_path : HandlerFile)
  : option PyModule :=
  match exec_module env file_path with
  | Ok (Some module) => Some module
  | Ok None => None
  | Raise _ => None
  end.

(** [_load_single_handler] (lines 147-184). *)
Definition _load_single_handler (env : LoaderEnv) (file_path : HandlerFile)
    (target : string) (st : Loading) : Loading :=
  let st := mkLoading (result st) (imported st ++ [file_path])%list (included st) in
  match _import_module_safely env file_path with
  | None => with_result add_failed st
  | Some module =>
      match router module with
      | None => with_result add_skipped st
      | Some NotRouter =>
          with_result
            (fun r => add_error ("Router instance değil: " ++ file_name file_path)
                        (add_failed r)) st
      | Some (IsRouter r) =>
          match include_router env target r with
          | Ok _ =>
              with_result add_loaded
                (mkLoading (result st) (imported st)
                   (included st ++ [(target, r)])%list)
          | Raise e =>
              with_result
                (fun res => add_failed
                   (add_error (file_name file_path ++ " yükleme hatası: " ++ str e)
                      res)) st
          end
      end
  end.

(** The files a directory contributes: what [glob] yields, less the names
    that start with an underscore. *)
Definition py_files (names : list string) : list string :=
  filter (fun name => negb (starts_with_underscore name)) names.

(** [_load_handlers_from_dir] (lines 126-145): the listing, the filter, the
    early return, [relative_to] for the log line, then the loop; what
    raises on the way ends the directory.  ([relative_to] at line 178 is
    asked for a file of a directory that has passed this one.) *)
Definition _load_handlers_from_dir (env : LoaderEnv) (self : HandlerLoader)
    (dir_path : string) (target : string) (st : Loading) : Loading :=
  match glob_py env dir_path with
  | Raise _ => st
  | Ok names =>
      match py_files names with
      | [] => st
      | name :: names' =>
          match relative_to env dir_path (base_dir self) with
          | Raise _ => st
          | Ok _ =>
              fold_left
                (fun st name =>
                   _load_single_handler env (mkHandlerFile dir_path name) target
                     (with_result add_scanned st))
                (name :: names') st
          end
      end
  end.

(** The loop of [_get_scan_directories] (lines 119-122). *)
Fixpoint scan_loop (env : LoaderEnv) (base : string) (subdirs : list string)
    (directories : list string) : Outcome (list string) :=
  match subdirs with
  | [] => Ok directories
  | subdir :: subdirs' =>
      match path_exists env (join_path env base subdir) with
      | Raise e => Raise e
      | Ok true =>
          scan_loop env base subdirs'
            (directories ++ [join_path env base subdir])%list
      | Ok false => scan_loop env base subdirs' directories
      end
  end.

(** [_get_scan_directories] (lines 114-124). *)
Definition _get_scan_directories (env : LoaderEnv) (self : HandlerLoader)
  : Outcome (list string) :=
  scan_loop env (base_dir self) (handler_dirs self) [base_dir self].

(** [_load_all_handlers] (lines 106-112). *)
Definition _load_all_handlers (env : LoaderEnv) (self : HandlerLoader)
    (target : string) (st : Loading) : Outcome Loading :=
  match _get_scan_directories env self with
  | Raise e => Raise e
  | Ok scan_dirs =>
      Ok (fold_left
            (fun st dir_path => _load_handlers_from_dir env self dir_path target st)
            scan_dirs st)
  end.

(** The handler of [load_handlers] (lines 98-102): the message, then the
    failure. *)
Definition critical (e : Exn) (st : Loading) : Loading :=
  with_result
    (fun r => add_failed (add_error ("Kritik yükleme hatası: " ++ str e) r)) st.

(** [HandlerLoader.load_handlers] (lines 69-104); it returns the dictionary,
    here together with what was done to the outside. *)
Definition load_handlers_of (env : LoaderEnv) (self : HandlerLoader)
    (dispatcher_arg : option string) : dict Value * Loading :=
  let st := new_Loading in
  let target_dispatcher :=
    match dispatcher_arg with Some d => d | None => dispatcher self end in
  let st' :=
    match path_exists env (base_dir self) with
    | Raise e => critical e st
    | Ok false =>
        with_result (add_error ("Handler dizini bulunamadı: " ++ base_dir self)) st
    | Ok true =>
        match _load_all_handlers env self target_dispatcher st with
        | Ok st' => st'
        | Raise e => critical e st
        end
    end in
  (to_dict (result st'), st').

(** [load_handlers] (lines 243-246). *)
Definition load_handlers (env : LoaderEnv) (dispatcher : string)
    (base_path : string) : dict Value * Loading :=
  load_handlers_of env (new_HandlerLoader env dispatcher base_path None) None.

(** The directories that are scanned when nothing raises: the base, then the
    subdirectories that exist, in the order given. *)
Definition exists_true (env : LoaderEnv) (p : string) : bool :=
  match path_exists env p with Ok true => true | _ => false end.

(** The files a directory hands to the import machinery: none when its
    listing raises or when it is not under the base directory. *)
Definition files_of (env : LoaderEnv) (self : HandlerLoader)
    (dir_path : string) : list HandlerFile :=
  match glob_py env dir_path with
  | Ok names =>
      match relative_to env dir_path (base_dir self) with
      | Ok _ => map (mkHandlerFile dir_path) (py_files names)
      | Raise _ => []
      end
  | Raise _ => []
  end.

(** Whether [load_handlers] ends in its handler: the base directory or one
    of the subdirectories cannot be tested. *)
Definition is_critical (env : LoaderEnv) (self : HandlerLoader) : bool :=
  match path_exists env (base_dir self) with
  | Raise _ => true
  | Ok false => false
  | Ok true =>
      match _get_scan_directories env self with
      | Raise _ => true
      | Ok _ => false
      end
  end.

(** The balance of a result: what has been counted as loaded, failed or
    skipped beyond what has been scanned. *)
Definition surplus (r : LoadResult) : Z :=
  loaded r + failed r + skipped r - scanned r.

(** A sample tree: a base directory with two files, a [commands] directory
    with four, an [admin] directory whose listing raises, a directory
    [/opt/plugins] outside the base, and no [callbacks]. *)
Definition sample_loader_env : LoaderEnv :=
  {| resolve := fun p => p;
     join_path := path_join;
     relative_to := fun p base =>
       if String.prefix base p then Ok p
       else Raise (mkExn "is not in the subpath");
     path_exists := fun p =>
       Ok (String.eqb p "handlers" || String.eqb p "handlers/commands"
           || String.eqb p "handlers/admin" || String.eqb p "/opt/plugins");
     glob_py := fun d =>
       if String.eqb d "handlers" then Ok ["__init__.py"; "start.py"]
       else if String.eqb d "handlers/commands"
            then Ok ["help.py"; "_private.py"; "broken.py"; "plain.py"]
            else if String.eqb d "/opt/plugins" then Ok ["plugin.py"]
                 else Raise (mkExn "permission denied");
     exec_module := fun f =>
       if String.eqb (file_name f) "broken.py" then Raise (mkExn "syntax error")
       else if String.eqb (file_name f) "plain.py" then Ok (Some (mkPyModule None))
            else Ok (Some (mkPyModule (Some (IsRouter (file_name f)))));
     include_router := fun _ _ => Ok tt |}.

(** A loader over that tree, told to look into [commands], [callbacks],
    [admin] and [/opt/plugins]. *)
Definition sample_loader : HandlerLoader :=
  new_HandlerLoader sample_loader_env "dp" "handlers"
    (Some ["commands"; "callbacks"; "admin"; "/opt/plugins"]).

Unset Implicit Arguments.

(** ** Dictionaries *)

Section DictFacts.

Variable V : Type.
Implicit Types (d : dict V) (k : string) (v : V).

Lemma get_assign_eq k v d : get k (assign k v d) = Some v.
Proof.
  induction d as [|[k' v'] d IH]; simpl.
  - now rewrite String.eqb_refl.
  - destruct (String.eqb k k') eqn:E; simpl; rewrite E; auto.
Qed.

Lemma get_assign_ne k k' v d : k <> k' -> get k' (assign k v d) = get k' d.
Proof.
  intros Hne. induction d as [|[k0 v0] d IH]; simpl.
  - destruct (String.eqb k' k) eqn:E; auto.
    apply String.eqb_eq in E. congruence.
  - destruct (String.eqb k k0) eqn:E; simpl.
    + apply String.eqb_eq in E. subst k0.
      destruct (String.eqb k' k) eqn:E'; auto.
      apply String.eqb_eq in E'. congruence.
    + now rewrite IH.
Qed.

Lemma get_assign k k' v d :
  get k' (assign k v d) = if String.eqb k k' then Some v else get k' d.
Proof.
  destruct (String.eqb k k') eqn:E.
  - apply String.eqb_eq in E. subst. apply get_assign_eq.
  - apply String.eqb_neq in E. now apply get_assign_ne.
Qed.

Lemma mem_assign k k' v d :
  mem k' (assign k v d) = String.eqb k k' || mem k' d.
Proof.
  unfold mem. rewrite get_assign. now destruct (String.eqb k k').
Qed.

Lemma mem_true_get k d : mem k d = true <-> exists v, get k d = Some v.
Proof.
  unfold mem. destruct (get k d); split; intros H; eauto; try discriminate.
  now destruct H.
Qed.

Lemma mem_false_get k d : mem k d = false <-> get k d = None.
Proof. unfold mem. destruct (get k d); split; intros H; congruence. Qed.

Lemma get_In k v d : get k d = Some v -> In (k, v) d.
Proof.
  induction d as [|[k' v'] d IH]; simpl; [discriminate|].
  destruct (String.eqb k k') eqn:E.
  - apply String.eqb_eq in E. intros [= ->]. subst. now left.
  - auto.
Qed.

Lemma In_mem k v d : In (k, v) d -> mem k d = true.
Proof.
  unfold mem. induction d as [|[k' v'] d IH]; simpl; [tauto|].
  intros [[= -> ->]|H].
  - now rewrite String.eqb_refl.
  - destruct (String.eqb k k'); auto.
Qed.

End DictFacts.

(** ** The monad *)

Lemma bind_inv {A B : Type} (c : M A) (k : A -> M B) s o s' :
  bind c k s = (o, s') ->
  (exists a s1, c s = (Ok a, s1) /\ k a s1 = (o, s')) \/
  (exists e, c s = (Raise e, s') /\ o = Raise e).
Proof.
  unfold bind. destruct (c s) as [[a|e] s1]; intros H.
  - left. eauto.
  - right. inversion H; subst. eauto.
Qed.

Lemma bind_Ok {A B : Type} (c : M A) (k : A -> M B) s a s1 :
  c s = (Ok a, s1) -> bind c k s = k a s1.
Proof. unfold bind. now intros ->. Qed.

Lemma bind_Raise {A B : Type} (c : M A) (k : A -> M B) s e s1 :
  c s = (Raise e, s1) -> bind c k s = (Raise e, s1).
Proof. unfold bind. now intros ->. Qed.

Section Relates.

Variable R : ExcelSplitter -> ExcelSplitter -> Prop.
Hypothesis R_refl : forall s, R s s.
Hypothesis R_trans : forall s1 s2 s3, R s1 s2 -> R s2 s3 -> R s1 s3.

Lemma relates_ret {A : Type} (a : A) : relates R (ret a).
Proof. intros s o s' [= <- <-]. apply R_refl. Qed.

Lemma relates_gets {A : Type} (f : ExcelSplitter -> A) : relates R (gets f).
Proof. intros s o s' [= <- <-]. apply R_refl. Qed.

Lemma relates_subscript {V : Type} (d : ExcelSplitter -> dict V) k :
  relates R (subscript d k).
Proof.
  intros s o s'. unfold subscript.
  destruct (get k (d s)); intros [= <- <-]; apply R_refl.
Qed.

Lemma relates_modify f : (forall s, R s (f s)) -> relates R (modify f).
Proof. intros H s o s' [= <- <-]. apply H. Qed.

Lemma relates_call {A : Type} ev (o : Outcome A) :
  (forall s, R s (with_calls (fun l => (l ++ [ev])%list) s)) ->
  relates R (call ev o).
Proof. intros H s o' s' [= <- <-]. apply H. Qed.

Lemma relates_bind {A B : Type} (c : M A) (k : A -> M B) :
  relates R c -> (forall a, relates R (k a)) -> relates R (bind c k).
Proof.
  intros Hc Hk s o s' H.
  apply bind_inv in H as [(a & s1 & H1 & H2)|(e & H1 & _)].
  - eapply R_trans; [eapply Hc|eapply Hk]; eauto.
  - eapply Hc; eauto.
Qed.

Lemma relates_attempt {A : Type} (c : M A) : relates R c -> relates R (attempt c).
Proof.
  intros Hc s o s'. unfold attempt.
  destruct (c s) as [o1 s1] eqn:E. intros [= <- <-]. eapply Hc; eauto.
Qed.

Lemma relates_for_each {A : Type} (xs : list A) (body : A -> M unit) :
  (forall x, relates R (body x)) -> relates R (for_each xs body).
Proof.
  intros Hb. induction xs as [|x xs IH]; simpl.
  - apply relates_ret.
  - apply relates_bind; auto.
Qed.

End Relates.

(** ** The writer pool *)

Section Pool.

Variable Info : Type.
Variable env : Env Info.

Lemma logged_nil s : logged [] s = s.
Proof. destruct s. unfold logged, with_calls. simpl. now rewrite app_nil_r. Qed.

Lemma logged_logged evs evs' s : logged evs' (logged evs s) = logged (evs ++ evs') s.
Proof. destruct s. unfold logged, with_calls. simpl. now rewrite app_assoc. Qed.

Lemma call_inv {A : Type} ev (o o' : Outcome A) s s' :
  call ev o s = (o', s') -> o' = o /\ s' = logged [ev] s.
Proof. unfold call, logged. intros [= <- <-]. auto. Qed.

Lemma registered_logged g p evs s :
  registered g p (logged evs s) = logged evs (registered g p s).
Proof. reflexivity. Qed.

(** The three ways [_ensure_group_writer] can go. *)
Lemma ensure_cases g s o s' :
  _ensure_group_writer env g s = (o, s') ->
  (mem g (writers s) = true /\ o = Ok tt /\ s' = s) \/
  (mem g (writers s) = false /\
   exists p evs, o = Ok tt /\ s' = registered g p (logged evs s)) \/
  (mem g (writers s) = false /\
   exists e evs, o = Raise e /\ s' = logged evs s).
Proof.
  unfold _ensure_group_writer.
  destruct (mem g (writers s)) eqn:Hm.
  - intros [= <- <-]. auto.
  - intros H. right.
    apply bind_inv in H as [(i & s1 & H1 & H)|(e & H1 & ->)];
      apply call_inv in H1 as [H1 ->];
      [|right; split; eauto].
    apply bind_inv in H as [(f & s2 & H2 & H)|(e & H2 & ->)];
      apply call_inv in H2 as [H2 ->]; rewrite logged_logged in *;
      [|right; split; eauto].
    apply bind_inv in H as [(u & s3 & H3 & H)|(e & H3 & ->)];
      apply call_inv in H3 as [H3 ->]; rewrite logged_logged in *;
      [|right; split; eauto].
    apply bind_inv in H as [(u' & s4 & H4 & H)|(e & H4 & ->)];
      apply call_inv in H4 as [H4 ->]; rewrite logged_logged in *;
      [|right; split; eauto].
    apply bind_inv in H as [(hdr & s5 & H5 & H)|(e & H5 & ->)];
      [|discriminate].
    injection H5 as <- <-.
    apply bind_inv in H as [(u'' & s6 & H6 & H)|(e & H6 & ->)];
      apply call_inv in H6 as [H6 ->]; rewrite logged_logged in *;
      [|right; split; eauto].
    left. split; auto.
    unfold bind, modify in H. injection H as <- <-.
    eexists _, _. split; [reflexivity|].
    rewrite registered_logged. reflexivity.
Qed.

Lemma ensure_existing g s :
  mem g (writers s) = true -> _ensure_group_writer env g s = (Ok tt, s).
Proof. unfold _ensure_group_writer. now intros ->. Qed.

Lemma ensure_registers g s s' :
  _ensure_group_writer env g s = (Ok tt, s') -> mem g (writers s') = true.
Proof.
  intros H. apply ensure_cases in H as [(Hm & _ & ->)|[(_ & p & evs & _ & ->)|(_ & e & evs & He & _)]].
  - exact Hm.
  - unfold registered, with_row_counts, with_sheets, with_writers. simpl.
    rewrite mem_assign, String.eqb_refl. reflexivity.
  - discriminate.
Qed.

(** *** Consistency of the three dictionaries *)

Lemma consistent_init p h : consistent (init p h).
Proof. split; simpl; auto; discriminate. Qed.

Lemma consistent_logged evs s : consistent s -> consistent (logged evs s).
Proof. intros [H1 H2 H3]. split; simpl; auto. Qed.

Lemma consistent_registered g p s :
  consistent s -> consistent (registered g p s).
Proof.
  intros [H1 H2 H3].
  split; unfold registered, with_row_counts, with_sheets, with_writers; simpl.
  - intros g'. rewrite !mem_assign, H1. reflexivity.
  - intros g'. rewrite !mem_assign, H2. reflexivity.
  - intros g' ws c. rewrite !get_assign.
    destruct (String.eqb g g').
    + intros [= <-] [= <-]. simpl. split; [reflexivity|discriminate].
    + apply H3.
Qed.

Lemma ensure_consistent g s o s' :
  consistent s -> _ensure_group_writer env g s = (o, s') -> consistent s'.
Proof.
  intros Hc H.
  apply ensure_cases in H as [(_ & _ & ->)|[(_ & p & evs & _ & ->)|(_ & e & evs & _ & ->)]];
    auto using consistent_logged, consistent_registered.
Qed.

(** The cursor after [_ensure_group_writer]: untouched for every group that
    had a writer, 1 for the group just created. *)
Lemma ensure_written g s s' g' :
  consistent s -> _ensure_group_writer env g s = (Ok tt, s') ->
  written s' g' = written s g'.
Proof.
  intros Hc H.
  apply ensure_cases in H as [(_ & _ & ->)|[(Hm & p & evs & _ & ->)|(_ & e & evs & He & _)]];
    auto; [|discriminate].
  unfold written, registered, with_row_counts, with_sheets, with_writers. simpl.
  rewrite get_assign. destruct (String.eqb g g') eqn:E; auto.
  apply String.eqb_eq in E. subst g'.
  rewrite <- (cons_counts Hc) in Hm. apply mem_false_get in Hm.
  rewrite Hm. reflexivity.
Qed.

End Pool.

(** ** Dispatching a row *)

Section Engine.

Variable Info : Type.
Variable env : Env Info.

Lemma subscript_Some {V : Type} (d : ExcelSplitter -> dict V) k v s :
  get k (d s) = Some v -> subscript d k s = (Ok v, s).
Proof. unfold subscript. now intros ->. Qed.

(** What [dispatch] does once the writer of [g] is there. *)
Lemma dispatch_cases row g s o s' :
  consistent s -> dispatch env row g s = (o, s') ->
  (exists e s1, o = Raise e /\ _ensure_group_writer env g s = (Raise e, s1) /\ s' = s1) \/
  (exists s1 ws c,
     _ensure_group_writer env g s = (Ok tt, s1) /\
     get g (sheets s1) = Some ws /\ get g (row_counts s1) = Some c /\
     ((exists e, ws_write_row env g c row = Raise e /\ o = Raise e /\
                 s' = logged [EvWriteRow g c row] s1) \/
      (ws_write_row env g c row = Ok tt /\ o = Ok tt /\
       s' = appended g ws c row s1))).
Proof.
  intros Hc H. unfold dispatch in H.
  apply bind_inv in H as [([] & s1 & H1 & H)|(e & H1 & ->)]; [|left; eauto].
  right.
  assert (Hc1 : consistent s1) by (eapply ensure_consistent; eauto).
  assert (Hm : mem g (writers s1) = true) by (eapply ensure_registers; eauto).
  assert (exists ws, get g (sheets s1) = Some ws) as [ws Hws]
    by (apply mem_true_get; now rewrite (cons_sheets Hc1)).
  assert (exists c, get g (row_counts s1) = Some c) as [c Hrc]
    by (apply mem_true_get; now rewrite (cons_counts Hc1)).
  exists s1, ws, c. repeat split; auto.
  erewrite bind_Ok in H by (apply subscript_Some; eassumption).
  erewrite bind_Ok in H by (apply subscript_Some; eassumption).
  unfold write_row in H.
  apply bind_inv in H as [([] & s2 & H2 & H)|(e & H2 & ->)].
  - apply bind_inv in H2 as [([] & s3 & H3 & H2)|(e & H3 & Hx)];
      [|discriminate].
    apply call_inv in H3 as [H3 ->]. right.
    unfold modify in H2. injection H2 as <-.
    unfold bind, subscript, modify in H. simpl in H. rewrite Hrc in H.
    injection H as <- <-. auto.
  - apply bind_inv in H2 as [([] & s3 & H3 & H2)|(e' & H3 & [= ->])].
    + unfold modify in H2. discriminate.
    + apply call_inv in H3 as [H3 ->]. left. eauto.
Qed.

Lemma consistent_appended g ws c row s :
  consistent s -> get g (sheets s) = Some ws -> get g (row_counts s) = Some c ->
  consistent (appended g ws c row s).
Proof.
  intros [H1 H2 H3] Hws Hrc.
  assert (Hm : mem g (writers s) = true)
    by (rewrite <- H1; apply mem_true_get; eauto).
  split; unfold appended, with_matched_rows, with_row_counts, with_sheets; simpl.
  - intros g'. rewrite mem_assign, H1.
    destruct (String.eqb g g') eqn:E; auto.
    apply String.eqb_eq in E. now subst.
  - intros g'. rewrite mem_assign, H2.
    destruct (String.eqb g g') eqn:E; auto.
    apply String.eqb_eq in E. now subst.
  - intros g' ws' c'. rewrite !get_assign.
    destruct (String.eqb g g').
    + intros [= <-] [= <-]. unfold data_lines. simpl.
      destruct (H3 g ws c Hws Hrc) as [-> Hne]. unfold data_lines.
      destruct (lines ws) as [|l ls]; [congruence|]. simpl.
      split; [rewrite length_app; simpl; lia|discriminate].
    + apply H3.
Qed.

Lemma dispatch_consistent row g s o s' :
  consistent s -> dispatch env row g s = (o, s') -> consistent s'.
Proof.
  intros Hc H.
  destruct (dispatch_cases _ _ _ _ _ Hc H)
    as [(e & s1 & _ & H1 & ->)
       |(s1 & ws & c & H1 & Hws & Hrc & [(e & _ & _ & ->)|(_ & _ & ->)])];
    assert (Hc1 : consistent s1) by (eapply ensure_consistent; eauto); auto.
  - now apply consistent_logged.
  - now apply consistent_appended.
Qed.

(** A completed [dispatch] moves the cursor of its group by one and leaves
    the others where they were; the matched counter moves by one. *)
Lemma dispatch_written row g s s' :
  consistent s -> dispatch env row g s = (Ok tt, s') ->
  (forall g', written s' g' = written s g' + (if String.eqb g g' then 1 else 0)) /\
  matched_rows s' = matched_rows s + 1.
Proof.
  intros Hc H.
  destruct (dispatch_cases _ _ _ _ _ Hc H)
    as [(e & s1 & He & _)
       |(s1 & ws & c & H1 & Hws & Hrc & [(e & _ & He & _)|(_ & _ & ->)])];
    try discriminate.
  split.
  - intros g'. rewrite <- (ensure_written _ env g s s1 g' Hc H1).
    unfold written, appended, with_matched_rows, with_row_counts. simpl.
    rewrite get_assign. destruct (String.eqb g g') eqn:E.
    + apply String.eqb_eq in E. subst g'. rewrite Hrc. lia.
    + lia.
  - unfold appended, with_matched_rows. simpl.
    apply ensure_cases in H1
      as [(_ & _ & ->)|[(_ & p & evs & _ & ->)|(_ & e & evs & He & _)]];
      try discriminate; reflexivity.
Qed.

(** *** What [dispatch] leaves alone *)

Section Frame.

Variable R : ExcelSplitter -> ExcelSplitter -> Prop.
Hypothesis R_refl : forall s, R s s.
Hypothesis R_trans : forall s1 s2 s3, R s1 s2 -> R s2 s3 -> R s1 s3.
Hypothesis R_call : forall ev s,
  is_lookup ev = false -> R s (with_calls (fun l => (l ++ [ev])%list) s).
Hypothesis R_writers : forall f s, R s (with_writers f s).
Hypothesis R_sheets : forall f s, R s (with_sheets f s).
Hypothesis R_row_counts : forall f s, R s (with_row_counts f s).
Hypothesis R_matched_rows : forall f s, R s (with_matched_rows f s).

Lemma relates_ensure g : relates R (_ensure_group_writer env g).
Proof.
  intros s o s'. unfold _ensure_group_writer.
  destruct (mem g (writers s)).
  - intros [= <- <-]. apply R_refl.
  - revert s o s'.
    repeat (first [ apply relates_bind; auto; intros
                  | apply relates_call; auto
                  | apply relates_gets; auto
                  | apply relates_modify; auto ]).
Qed.

Lemma relates_dispatch row g : relates R (dispatch env row g).
Proof.
  unfold dispatch, write_row.
  repeat (first [ apply relates_bind; auto; intros
                | apply relates_ensure
                | apply relates_subscript; auto
                | apply relates_call; auto
                | apply relates_modify; auto ]).
Qed.

Lemma relates_dispatch_all row gs : relates R (for_each gs (dispatch env row)).
Proof. apply relates_for_each; auto using relates_dispatch. Qed.

End Frame.

Lemma n_lookups_logged ev s :
  n_lookups (logged [ev] s) = ((if is_lookup ev then 1 else 0) + n_lookups s)%nat.
Proof.
  unfold n_lookups, logged, with_calls. simpl.
  rewrite filter_app, length_app. simpl.
  destruct (is_lookup ev); simpl; lia.
Qed.

Lemma dispatch_all_lookups row gs s o s' :
  for_each gs (dispatch env row) s = (o, s') -> n_lookups s' = n_lookups s.
Proof.
  apply (relates_dispatch_all (fun s s' => n_lookups s' = n_lookups s));
    auto; try congruence.
  intros ev s0 Hev. change (with_calls _ s0) with (logged [ev] s0).
  rewrite n_lookups_logged, Hev. reflexivity.
Qed.

Lemma dispatch_all_unmatched row gs s o s' :
  for_each gs (dispatch env row) s = (o, s') ->
  unmatched_cities s' = unmatched_cities s.
Proof.
  apply (relates_dispatch_all
           (fun s s' => unmatched_cities s' = unmatched_cities s));
    auto; congruence.
Qed.

Lemma dispatch_all_consistent row gs s o s' :
  consistent s -> for_each gs (dispatch env row) s = (o, s') -> consistent s'.
Proof.
  revert s. induction gs as [|g gs IH]; simpl; intros s Hc H.
  - injection H as _ <-. exact Hc.
  - apply bind_inv in H as [([] & s1 & H1 & H)|(e & H1 & _)].
    + eapply IH; [|exact H]. eapply dispatch_consistent; eauto.
    + eapply dispatch_consistent; eauto.
Qed.

(** After the loop of [_process_row] has run to its end, every cursor has
    moved by the number of times its group was listed. *)
Lemma dispatch_all_written row gs s s' :
  consistent s -> for_each gs (dispatch env row) s = (Ok tt, s') ->
  (forall g, written s' g = written s g + Z.of_nat (count_occ string_dec gs g)) /\
  matched_rows s' = matched_rows s + Z.of_nat (length gs).
Proof.
  revert s. induction gs as [|g gs IH]; intros s Hc H.
  - injection H as <-. split; [intros g|]; simpl; lia.
  - simpl in H.
    apply bind_inv in H as [([] & s1 & H1 & H)|(e & H1 & He)]; [|discriminate].
    assert (Hc1 : consistent s1) by (eapply dispatch_consistent; eauto).
    destruct (dispatch_written _ _ _ _ Hc H1) as [Hw Hm].
    destruct (IH _ Hc1 H) as [Hw' Hm'].
    split.
    + intros g'. rewrite Hw', Hw. simpl count_occ.
      destruct (string_dec g g') as [->|Hne].
      * rewrite String.eqb_refl. lia.
      * apply String.eqb_neq in Hne. rewrite Hne. lia.
    + rewrite Hm', Hm. simpl length. lia.
Qed.

(** [_process_row], unfolded up to its loop. *)
Lemma process_row_unfold row s :
  _process_row env row s =
  match get_groups_for_city env (n_lookups s) (city_of row) with
  | Raise e => (Raise e, logged [EvLookup (city_of row)] s)
  | Ok gs =>
      for_each gs (dispatch env row)
        (if is_empty gs && truthy (city_of row)
         then with_unmatched_cities (set_add (city_of row))
                (logged [EvLookup (city_of row)] s)
         else logged [EvLookup (city_of row)] s)
  end.
Proof.
  unfold _process_row, bind, gets, call, logged.
  destruct (get_groups_for_city env (n_lookups s) (city_of row)) as [gs|e];
    [|reflexivity].
  destruct (is_empty gs && truthy (city_of row)); reflexivity.
Qed.

Lemma consistent_with_unmatched f s :
  consistent s -> consistent (with_unmatched_cities f s).
Proof. intros [H1 H2 H3]. split; simpl; auto. Qed.

Lemma process_row_consistent row s o s' :
  consistent s -> _process_row env row s = (o, s') -> consistent s'.
Proof.
  intros Hc. rewrite process_row_unfold.
  destruct (get_groups_for_city env (n_lookups s) (city_of row)) as [gs|e].
  - apply dispatch_all_consistent.
    destruct (is_empty gs && truthy (city_of row));
      auto using consistent_with_unmatched, consistent_logged.
  - intros [= _ <-]. now apply consistent_logged.
Qed.

(** Every call of [_process_row] makes exactly one lookup, whatever comes
    of it. *)
Lemma process_row_lookups row s o s' :
  _process_row env row s = (o, s') -> n_lookups s' = S (n_lookups s).
Proof.
  rewrite process_row_unfold.
  destruct (get_groups_for_city env (n_lookups s) (city_of row)) as [gs|e].
  - intros H. apply dispatch_all_lookups in H. rewrite H.
    destruct (is_empty gs && truthy (city_of row));
      [change (n_lookups (with_unmatched_cities _ ?x)) with (n_lookups x)|];
      now rewrite n_lookups_logged.
  - intros [= _ <-]. now rewrite n_lookups_logged.
Qed.

Lemma process_row_written row s s' :
  consistent s -> _process_row env row s = (Ok tt, s') ->
  exists gs,
    get_groups_for_city env (n_lookups s) (city_of row) = Ok gs /\
    (forall g, written s' g = written s g + Z.of_nat (count_occ string_dec gs g)) /\
    matched_rows s' = matched_rows s + Z.of_nat (length gs).
Proof.
  intros Hc. rewrite process_row_unfold.
  destruct (get_groups_for_city env (n_lookups s) (city_of row)) as [gs|e];
    [|discriminate].
  intros H. exists gs. split; auto.
  apply dispatch_all_written in H.
  - destruct (is_empty gs && truthy (city_of row)); exact H.
  - destruct (is_empty gs && truthy (city_of row));
      auto using consistent_with_unmatched, consistent_logged.
Qed.

(** *** The loop over the rows *)

Lemma row_loop_consistent rows n s o s' :
  consistent s -> row_loop env rows n s = (o, s') -> consistent s'.
Proof.
  revert n s. induction rows as [|row rows IH]; simpl; intros n s Hc H.
  - injection H as _ <-. exact Hc.
  - apply bind_inv in H as [([] & s1 & H1 & H)|(e & H1 & _)].
    + eapply IH; [|exact H]. eapply process_row_consistent; eauto.
    + eapply process_row_consistent; eauto.
Qed.

Lemma row_loop_done rows n s m s' :
  consistent s -> row_loop env rows n s = (Ok m, s') ->
  m = n + Z.of_nat (length rows) /\
  n_lookups s' = (n_lookups s + length rows)%nat /\
  (forall g, written s' g = written s g + listings env g (n_lookups s) rows) /\
  matched_rows s' = matched_rows s + destinations env (n_lookups s) rows.
Proof.
  revert n s. induction rows as [|row rows IH]; intros n s Hc H.
  - injection H as <- <-. simpl. repeat split; try intros g; lia.
  - simpl in H.
    apply bind_inv in H as [([] & s1 & H1 & H)|(e & H1 & He)]; [|discriminate].
    assert (Hc1 : consistent s1) by (eapply process_row_consistent; eauto).
    pose proof (process_row_lookups _ _ _ _ H1) as Hl.
    destruct (process_row_written _ _ _ Hc H1) as (gs & Hgs & Hw & Hm).
    destruct (IH _ _ Hc1 H) as (-> & Hl' & Hw' & Hm').
    rewrite Hl in *.
    repeat split.
    + simpl length. lia.
    + rewrite Hl'. simpl. lia.
    + intros g. rewrite Hw', Hw. simpl. unfold resolved at 1. rewrite Hgs. lia.
    + rewrite Hm', Hm. simpl. unfold resolved at 1. rewrite Hgs. lia.
Qed.

End Engine.

(** ** Closing the writers *)

Section Finalizer.

Variable Info : Type.
Variable env : Env Info.

(** One turn of the loop of [_finalize]. *)
Lemma close_loop_step g wb items out s :
  close_loop env ((g, wb) :: items) out s =
  match wb_close env g with
  | Raise _ => close_loop env items out (logged [EvClose g] s)
  | Ok _ =>
      match get g (row_counts s) with
      | Some c => close_loop env items (assign g (descriptor wb c) out) (closed_at g wb s)
      | None => close_loop env items out (closed_at g wb s)
      end
  end.
Proof.
  simpl. unfold bind at 1, attempt, bind, call, mark_closed, modify, subscript, ret.
  destruct (wb_close env g) as [[]|e]; [|reflexivity].
  simpl. fold (logged [EvClose g] s).
  destruct (get g (row_counts s)); reflexivity.
Qed.

(** The loop never raises. *)
Lemma close_loop_returns items out s :
  exists fs s', close_loop env items out s = (Ok fs, s').
Proof.
  revert out s. induction items as [|[g wb] items IH]; intros out s.
  - simpl. unfold ret. eauto.
  - rewrite close_loop_step.
    destruct (wb_close env g); [destruct (get g (row_counts s))|]; apply IH.
Qed.

Lemma same_counters_closed_at g wb s : same_counters s (closed_at g wb s).
Proof.
  unfold same_counters, closed_at, with_writers. simpl. repeat split.
  unfold n_lookups. simpl. rewrite filter_app, length_app. simpl. lia.
Qed.

Lemma same_counters_logged_close g s : same_counters s (logged [EvClose g] s).
Proof.
  unfold same_counters. simpl. repeat split. now rewrite n_lookups_logged.
Qed.

Lemma same_counters_trans s1 s2 s3 :
  same_counters s1 s2 -> same_counters s2 s3 -> same_counters s1 s3.
Proof. unfold same_counters. intuition congruence. Qed.

Lemma close_loop_counters items out s fs s' :
  close_loop env items out s = (Ok fs, s') -> same_counters s s'.
Proof.
  revert out s. induction items as [|[g wb] items IH]; intros out s.
  - simpl. intros [= _ <-]. unfold same_counters. auto.
  - rewrite close_loop_step. intros H.
    destruct (wb_close env g); [destruct (get g (row_counts s))|];
      apply IH in H; eapply same_counters_trans; try exact H;
      auto using same_counters_closed_at, same_counters_logged_close.
Qed.

(** Every entry of [output_files] comes from a workbook that closed, and
    carries that group's cursor less one. *)
Lemma close_loop_entries items out s fs s' g d :
  close_loop env items out s = (Ok fs, s') ->
  get g fs = Some d ->
  get g out = Some d \/
  (exists wb c, In (g, wb) items /\ wb_close env g = Ok tt /\
                get g (row_counts s) = Some c /\ d = descriptor wb c).
Proof.
  revert out s. induction items as [|[g0 wb0] items IH]; intros out s.
  - simpl. intros [= <- _]. auto.
  - rewrite close_loop_step. intros H Hg.
    destruct (wb_close env g0) as [[]|e] eqn:Hclose.
    + destruct (get g0 (row_counts s)) as [c|] eqn:Hc.
      * pose proof (IH _ _ H Hg) as [Hout|(wb & c' & Hin & Hcl & Hrc & Hd)].
        -- rewrite get_assign in Hout.
           destruct (String.eqb g0 g) eqn:E; auto.
           apply String.eqb_eq in E. subst g0. injection Hout as <-.
           right. exists wb0, c. simpl. auto.
        -- right. exists wb, c'. simpl. auto.
      * pose proof (IH _ _ H Hg) as [Hout|(wb & c' & Hin & Hcl & Hrc & Hd)]; auto.
        right. exists wb, c'. simpl. auto.
    + pose proof (IH _ _ H Hg) as [Hout|(wb & c' & Hin & Hcl & Hrc & Hd)]; auto.
      right. exists wb, c'. simpl. auto.
Qed.

(** A group whose workbook does not close gets no entry. *)
Lemma close_loop_omits items out s fs s' g e :
  close_loop env items out s = (Ok fs, s') ->
  wb_close env g = Raise e -> get g fs = get g out.
Proof.
  intros H Hcl. destruct (get g fs) as [d|] eqn:Hg.
  - destruct (close_loop_entries _ _ _ _ _ _ _ H Hg)
      as [Hout|(wb & c & _ & Hcl' & _)]; congruence.
  - revert out s H. induction items as [|[g0 wb0] items IH]; intros out s.
    + simpl. intros [= <- _]. auto.
    + rewrite close_loop_step. intros H.
      destruct (wb_close env g0) as [[]|e0] eqn:Hclose;
        [destruct (get g0 (row_counts s))|]; apply IH in H; auto.
      rewrite get_assign in H.
      destruct (String.eqb g0 g) eqn:E; auto.
      apply String.eqb_eq in E. subst g0. congruence.
Qed.

(** An entry once made stays. *)
Lemma close_loop_keeps items out s fs s' g :
  close_loop env items out s = (Ok fs, s') ->
  mem g out = true -> mem g fs = true.
Proof.
  revert out s. induction items as [|[g0 wb0] items IH]; intros out s.
  - simpl. intros [= <- _]. auto.
  - rewrite close_loop_step. intros H Hm.
    destruct (wb_close env g0); [destruct (get g0 (row_counts s))|];
      apply IH in H; auto.
    rewrite mem_assign, Hm. apply orb_true_r.
Qed.

(** Every workbook of the list is asked to close; one that closes is marked
    closed and, when its group has a cursor, gets its entry. *)
Lemma close_loop_closes items out s fs s' g wb :
  close_loop env items out s = (Ok fs, s') ->
  In (g, wb) items ->
  In (EvClose g) (calls s') /\
  (wb_close env g = Ok tt ->
   (exists wb', get g (writers s') = Some wb' /\ closed wb' = true) /\
   (mem g (row_counts s) = true -> mem g fs = true)).
Proof.
  revert out s. induction items as [|[g0 wb0] items IH]; intros out s H Hin.
  - destruct Hin.
  - rewrite close_loop_step in H.
    destruct Hin as [[= -> ->]|Hin].
    + clear IH.
      assert (Hcalls : forall its out s fs s' ev,
                 close_loop env its out s = (Ok fs, s') ->
                 In ev (calls s) -> In ev (calls s')).
      { clear. induction its as [|[g0 wb0] its IH]; intros out s fs s' ev.
        - simpl. intros [= _ <-]. auto.
        - rewrite close_loop_step. intros H Hin.
          destruct (wb_close env g0); [destruct (get g0 (row_counts s))|];
            apply IH with (ev := ev) in H; auto;
            simpl; apply in_or_app; auto. }
      assert (Hmark : forall its out s fs s' g,
                 close_loop env its out s = (Ok fs, s') ->
                 (exists wb', get g (writers s) = Some wb' /\ closed wb' = true) ->
                 exists wb', get g (writers s') = Some wb' /\ closed wb' = true).
      { clear. induction its as [|[g0 wb0] its IH]; intros out s fs s' g.
        - simpl. intros [= _ <-]. auto.
        - rewrite close_loop_step. intros H Hex.
          destruct (wb_close env g0); [destruct (get g0 (row_counts s))|];
            apply IH with (g := g) in H; auto;
            simpl; rewrite get_assign; destruct (String.eqb g0 g); eauto. }
      split.
      * destruct (wb_close env g); [destruct (get g (row_counts s))|];
          eapply Hcalls; try exact H; simpl; apply in_or_app; simpl; auto.
      * intros Hcl. rewrite Hcl in H. split.
        -- destruct (get g (row_counts s)); eapply Hmark; try exact H;
             simpl; rewrite get_assign_eq; eauto.
        -- intros Hm. apply mem_true_get in Hm as [c Hc]. rewrite Hc in H.
           eapply close_loop_keeps; [exact H|].
           rewrite mem_assign, String.eqb_refl. reflexivity.
    + destruct (wb_close env g0); [destruct (get g0 (row_counts s))|];
        destruct (IH _ _ H Hin) as [Hc Hok]; split; auto.
Qed.

(** [_finalize] always returns the success dictionary. *)
Lemma finalize_returns n s :
  exists fs s',
    close_loop env (writers s) empty s = (Ok fs, s') /\
    _finalize env n s =
    (Ok [ ("success", VBool true);
          ("total_rows", VInt n);
          ("matched_rows", VInt (matched_rows s));
          ("output_files", VFiles fs);
          ("unmatched_cities", VList (unmatched_cities s));
          ("stats", VCounts (row_counts s)) ], s').
Proof.
  destruct (close_loop_returns (writers s) empty s) as (fs & s' & H).
  exists fs, s'. split; auto.
  unfold _finalize, bind, gets, ret, items. rewrite H.
  destruct (close_loop_counters _ _ _ _ _ H) as (-> & _ & -> & -> & _).
  reflexivity.
Qed.

End Finalizer.

(** ** The run *)

Section Run.

Variable Info : Type.
Variable env : Env Info.

Lemma finalize_never_raises n s e s' : _finalize env n s <> (Raise e, s').
Proof.
  destruct (finalize_returns _ env n s) as (fs & s1 & _ & H).
  rewrite H. discriminate.
Qed.

Lemma failure_not_succeeded e : ~ succeeded (failure e).
Proof. unfold succeeded, failure. simpl. discriminate. Qed.

(** [run] returns what its [try] block returns, or the failure dictionary
    of what the block raised. *)
Lemma run_cases s r s' :
  run env s = (r, s') ->
  run_try env s = (Ok r, s') \/
  (exists e, run_try env s = (Raise e, s') /\ r = failure e).
Proof.
  unfold run. destruct (run_try env s) as [[r0|e] s0]; intros [= <- <-]; eauto.
Qed.

(** The steps behind a success dictionary. *)
Lemma run_try_inv s r s' :
  run_try env s = (Ok r, s') ->
  exists sheet n s1 fs,
    ensure_initialized env = Ok tt /\
    load_workbook env (input_path s) = Ok sheet /\
    row_loop env (skipn 1 sheet) 0 (logged [EvInit; EvLoad (input_path s)] s)
      = (Ok n, s1) /\
    input_close env = Ok tt /\
    close_loop env (writers s1) empty (logged [EvCloseInput] s1) = (Ok fs, s') /\
    r = [ ("success", VBool true);
          ("total_rows", VInt n);
          ("matched_rows", VInt (matched_rows s1));
          ("output_files", VFiles fs);
          ("unmatched_cities", VList (unmatched_cities s1));
          ("stats", VCounts (row_counts s1)) ].
Proof.
  unfold run_try. intros H.
  apply bind_inv in H as [([] & s1 & H1 & H)|(e & _ & He)]; [|discriminate].
  apply call_inv in H1 as [H1 ->].
  apply bind_inv in H as [(path & s2 & H2 & H)|(e & _ & He)]; [|discriminate].
  injection H2 as <- <-.
  apply bind_inv in H as [(sheet & s3 & H3 & H)|(e & _ & He)]; [|discriminate].
  apply call_inv in H3 as [H3 ->]. rewrite logged_logged in H.
  apply bind_inv in H as [(n & s4 & H4 & H)|(e & _ & He)]; [|discriminate].
  apply bind_inv in H as [([] & s5 & H5 & H)|(e & _ & He)]; [|discriminate].
  apply call_inv in H5 as [H5 ->].
  destruct (finalize_returns _ env n (logged [EvCloseInput] s4))
    as (fs & s6 & Hcl & Hfin).
  rewrite Hfin in H. injection H as <- <-.
  exists sheet, n, s4, fs. simpl in *. auto 10.
Qed.

Lemma run_succeeded_inv s r s' :
  run env s = (r, s') -> succeeded r -> run_try env s = (Ok r, s').
Proof.
  intros H Hs. apply run_cases in H as [H|(e & _ & ->)]; auto.
  now apply failure_not_succeeded in Hs.
Qed.

(** The loop counts every row it has dispatched. *)
Lemma row_loop_count rows n s m s' :
  row_loop env rows n s = (Ok m, s') -> m = n + Z.of_nat (length rows).
Proof.
  revert n s. induction rows as [|row rows IH]; intros n s H.
  - injection H as <- _. simpl. lia.
  - simpl in H.
    apply bind_inv in H as [([] & s1 & _ & H)|(e & _ & He)]; [|discriminate].
    apply IH in H. simpl length. lia.
Qed.

(** A row that raises ends the loop where it stands. *)
Lemma row_loop_raises pre row rest n s s1 m e s2 :
  row_loop env pre n s = (Ok m, s1) ->
  _process_row env row s1 = (Raise e, s2) ->
  row_loop env (pre ++ row :: rest) n s = (Raise e, s2).
Proof.
  revert n s. induction pre as [|r pre IH]; intros n s H Hrow.
  - injection H as _ <-. simpl. unfold bind. now rewrite Hrow.
  - simpl in H |- *.
    apply bind_inv in H as [([] & s0 & H0 & H)|(e0 & _ & He)]; [|discriminate].
    erewrite bind_Ok by exact H0. eauto.
Qed.

(** Closing keeps the keys of [writers] when it runs over them. *)
Lemma close_loop_writers its out s fs s' g :
  close_loop env its out s = (Ok fs, s') ->
  (forall g0 wb, In (g0, wb) its -> mem g0 (writers s) = true) ->
  mem g (writers s') = mem g (writers s).
Proof.
  revert out s. induction its as [|[g0 wb0] its IH]; intros out s H Hin.
  - injection H as _ <-. reflexivity.
  - rewrite close_loop_step in H.
    assert (Hg0 : mem g0 (writers s) = true) by (eapply Hin; left; eauto).
    assert (Hm : mem g (writers (closed_at g0 wb0 s)) = mem g (writers s)).
    { unfold closed_at, with_writers. simpl. rewrite mem_assign.
      destruct (String.eqb g0 g) eqn:E; auto.
      apply String.eqb_eq in E. now subst. }
    destruct (wb_close env g0); [destruct (get g0 (row_counts s))|];
      apply IH in H; try (rewrite H; exact Hm); auto;
      intros g1 wb1 Hin1; try rewrite (mem_assign);
      try (unfold closed_at, with_writers; simpl; rewrite mem_assign);
      try (erewrite Hin by (right; eauto)); auto using orb_true_r.
Qed.

Lemma close_loop_consistent s fs s' :
  consistent s ->
  close_loop env (writers s) empty s = (Ok fs, s') -> consistent s'.
Proof.
  intros [H1 H2 H3] H.
  destruct (close_loop_counters _ _ _ _ _ _ _ H) as (Hrc & Hsh & _).
  assert (Hw : forall g, mem g (writers s') = mem g (writers s)).
  { intros g. eapply close_loop_writers; [exact H|].
    intros g0 wb Hin. eapply In_mem; eauto. }
  split.
  - intros g. now rewrite Hrc, Hw.
  - intros g. now rewrite Hsh, Hw.
  - intros g ws c. rewrite Hrc, Hsh. apply H3.
Qed.

End Run.

(** ** Properties of the splitter *)

Section Properties.

Variable Info : Type.
Variable env : Env Info.

(** C7. [_ensure_group_writer] is idempotent.  For a group that has a
    writer, whatever its cursor and its sheet hold by then, and so also
    right after a first call that returned, the call returns at once and
    leaves every attribute as it was: no collaborator is called (no second
    workbook), and [writers], [sheets] (the header line and the rows below
    it) and [row_counts] (the cursor) are untouched. *)
Theorem ensure_group_writer_idempotent g s :
  mem g (writers s) = true \/
  (exists s0, _ensure_group_writer env g s0 = (Ok tt, s)) ->
  mem g (writers s) = true /\
  _ensure_group_writer env g s = (Ok tt, s).
Proof.
  intros H.
  assert (Hm : mem g (writers s) = true).
  { destruct H as [H|[s0 H]]; [exact H|]. eapply ensure_registers; eauto. }
  split; [exact Hm|]. now apply ensure_existing.
Qed.

(** C5. In a success dictionary [total_rows] is the number of rows of the
    sheet below its first line: the loop adds one for every row it has
    dispatched, whatever the row resolved to. *)
Theorem total_rows_counts_data_rows s sheet r s' :
  load_workbook env (input_path s) = Ok sheet ->
  run env s = (r, s') ->
  succeeded r ->
  get "total_rows" r = Some (VInt (Z.of_nat (length (skipn 1 sheet)))).
Proof.
  intros Hload Hrun Hs.
  apply run_succeeded_inv in Hrun; auto.
  apply run_try_inv in Hrun
    as (sheet' & n & s1 & fs & _ & Hload' & Hloop & _ & _ & ->).
  rewrite Hload in Hload'. injection Hload' as <-.
  apply row_loop_count in Hloop. subst n. reflexivity.
Qed.

Lemma count_occ_contains g gs :
  NoDup gs ->
  Z.of_nat (count_occ string_dec gs g) = if contains g gs then 1 else 0.
Proof.
  unfold contains. induction 1 as [|g0 gs Hnotin Hnd IH]; simpl; auto.
  destruct (string_dec g0 g) as [->|Hne].
  - rewrite String.eqb_refl. simpl.
    apply (count_occ_not_In string_dec) in Hnotin. rewrite Hnotin. reflexivity.
  - assert (E : String.eqb g g0 = false) by (apply String.eqb_neq; congruence).
    rewrite E. simpl. exact IH.
Qed.

Lemma listings_rows_resolving_to g n rows :
  (forall n c gs, get_groups_for_city env n c = Ok gs -> NoDup gs) ->
  listings env g n rows = rows_resolving_to env g n rows.
Proof.
  intros Hset. revert n. induction rows as [|row rows IH]; intros n; simpl; auto.
  rewrite IH, count_occ_contains; auto.
  unfold resolved.
  destruct (get_groups_for_city env n (city_of row)) eqn:E.
  - eapply Hset; eauto.
  - constructor.
Qed.

(** The attributes when the loop over the rows has come to its end. *)
Lemma rows_done p h sheet r s' :
  load_workbook env p = Ok sheet ->
  run env (init p h) = (r, s') ->
  succeeded r ->
  exists fs,
    get "output_files" r = Some (VFiles fs) /\
    get "stats" r = Some (VCounts (row_counts s')) /\
    consistent s' /\
    (forall g, written s' g = listings env g 0 (skipn 1 sheet)) /\
    (forall g d, get g fs = Some d ->
       exists c, get g (row_counts s') = Some c /\ row_count d = c - 1).
Proof.
  intros Hload Hrun Hs.
  apply run_succeeded_inv in Hrun; auto.
  apply run_try_inv in Hrun
    as (sheet' & n & s1 & fs & _ & Hload' & Hloop & _ & Hclose & ->).
  simpl in Hload'. rewrite Hload in Hload'. injection Hload' as <-.
  assert (Hc0 : consistent (logged [EvInit; EvLoad (input_path (init p h))] (init p h)))
    by (apply consistent_logged, consistent_init).
  assert (Hc1 : consistent s1) by (eapply row_loop_consistent; eauto).
  destruct (row_loop_done _ _ _ _ _ _ _ Hc0 Hloop) as (_ & _ & Hw & _).
  destruct (close_loop_counters _ _ _ _ _ _ _ Hclose) as (Hrc & _).
  simpl in Hrc.
  exists fs.
  split; [reflexivity|]. split; [simpl; now rewrite Hrc|].
  split; [|split].
  - apply (close_loop_consistent _ env (logged [EvCloseInput] s1) fs s');
      [now apply consistent_logged|exact Hclose].
  - intros g. unfold written. rewrite Hrc. apply Hw.
  - intros g d Hg.
    destruct (close_loop_entries _ _ _ _ _ _ _ _ _ Hclose Hg)
      as [Hout|(wb & c & _ & _ & Hc & ->)]; [discriminate|].
    exists c. rewrite Hrc. split; auto.
Qed.

(** C9. In a success dictionary [stats] is the copy of [row_counts]: it has
    a key for exactly the groups that have a writer, each with its final
    cursor, which is one more than the number of data lines written to the
    group's sheet; and for every group of [output_files],
    [stats[g] = output_files[g].row_count + 1]. *)
Theorem stats_are_final_cursors p h r s' :
  run env (init p h) = (r, s') ->
  succeeded r ->
  exists st fs,
    get "stats" r = Some (VCounts st) /\
    get "output_files" r = Some (VFiles fs) /\
    st = row_counts s' /\
    (forall g, mem g st = mem g (writers s')) /\
    (forall g c, get g st = Some c ->
       exists ws, get g (sheets s') = Some ws /\
                  c = Z.of_nat (length (data_lines ws)) + 1) /\
    (forall g d, get g fs = Some d -> get g st = Some (row_count d + 1)).
Proof.
  intros Hrun Hs.
  assert (Hrun' := Hrun).
  apply run_succeeded_inv in Hrun'; auto.
  apply run_try_inv in Hrun' as (sheet & _ & _ & _ & _ & Hload & _).
  simpl in Hload.
  destruct (rows_done _ _ _ _ _ Hload Hrun Hs)
    as (fs & Hfs & Hst & Hc & _ & Hd).
  exists (row_counts s'), fs.
  split; [exact Hst|]. split; [exact Hfs|]. split; [reflexivity|].
  split; [|split].
  - apply (cons_counts Hc).
  - intros g c Hg.
    assert (Hm : mem g (sheets s') = true).
    { rewrite (cons_sheets Hc), <- (cons_counts Hc).
      apply mem_true_get. eauto. }
    apply mem_true_get in Hm as [ws Hws].
    exists ws. split; auto. exact (proj1 (cons_lines Hc _ Hws Hg)).
  - intros g d Hg. destruct (Hd _ _ Hg) as (c & -> & ->). f_equal. lia.
Qed.

(** C10. When the workbook of a group does not close, [_finalize] still
    returns, with [success] true and no [error]; the group has no entry in
    [output_files] and keeps its entry in [stats]; and every workbook of
    [writers] is asked to close, the ones that do being marked closed and
    given their entry. *)
Theorem close_failure_skips_group n s g wb e :
  consistent s ->
  In (g, wb) (writers s) ->
  wb_close env g = Raise e ->
  exists r fs s',
    _finalize env n s = (Ok r, s') /\
    succeeded r /\
    get "error" r = None /\
    get "output_files" r = Some (VFiles fs) /\
    get g fs = None /\
    get "stats" r = Some (VCounts (row_counts s)) /\
    mem g (row_counts s) = true /\
    (forall g' wb', In (g', wb') (writers s) ->
       In (EvClose g') (calls s') /\
       (wb_close env g' = Ok tt ->
        (exists wb'', get g' (writers s') = Some wb'' /\ closed wb'' = true) /\
        mem g' fs = true)).
Proof.
  intros Hc Hin Hclose.
  destruct (finalize_returns _ env n s) as (fs & s' & Hloop & Hfin).
  eexists _, fs, s'. split; [exact Hfin|].
  repeat split; try reflexivity.
  - erewrite close_loop_omits by eauto. reflexivity.
  - rewrite (cons_counts Hc). eapply In_mem; eauto.
  - eapply close_loop_closes; eauto.
  - eapply close_loop_closes; eauto.
  - destruct (close_loop_closes _ _ _ _ _ _ _ _ _ Hloop H) as [_ Hok].
    apply Hok; auto.
    rewrite (cons_counts Hc). eapply In_mem; eauto.
Qed.

End Properties.

(** One step of a run against collaborators known by equations: evaluate up
    to the next call, then use what the call answers. *)
Ltac step H :=
  cbv - [ensure_initialized load_workbook input_close get_groups_for_city
         get_group_info generate_output_filename OUTPUT_DIR mkdir
         new_workbook ws_write_row wb_close path_name path_join];
  rewrite ?H;
  cbv - [ensure_initialized load_workbook input_close get_groups_for_city
         get_group_info generate_output_filename OUTPUT_DIR mkdir
         new_workbook ws_write_row wb_close path_name path_join].

Section Scenario.

Variable Info : Type.
Variable env : Env Info.

(** C6. The three-row scenario: with the headers Id, City, Value, a sheet of
    three data rows whose lookups answer EU, then nothing, then EU and VIP,
    and collaborators that do not fail, the run returns [total_rows] 3, two
    rows for EU, one for VIP, Lagos as the only unmatched key (the key
    [unmatched_cities] of the dictionary), and [matched_rows] 3, one for
    every write. *)
Theorem three_row_scenario p file_header :
  ensure_initialized env = Ok tt ->
  load_workbook env p =
    Ok [ file_header;
         [CInt 1; CStr "Paris"; CInt 10];
         [CInt 2; CStr "Lagos"; CInt 5];
         [CInt 3; CStr "Paris"; CInt 7] ] ->
  input_close env = Ok tt ->
  get_groups_for_city env 0 (CStr "Paris") = Ok ["EU"] ->
  get_groups_for_city env 1 (CStr "Lagos") = Ok [] ->
  get_groups_for_city env 2 (CStr "Paris") = Ok ["EU"; "VIP"] ->
  writers_reliable env ->
  let r := split_excel_by_groups env p ["Id"; "City"; "Value"] in
  succeeded r /\
  get "total_rows" r = Some (VInt 3) /\
  (exists fs eu vip,
     get "output_files" r = Some (VFiles fs) /\
     get "EU" fs = Some eu /\ row_count eu = 2 /\
     get "VIP" fs = Some vip /\ row_count vip = 1) /\
  get "unmatched_cities" r = Some (VList [CStr "Lagos"]) /\
  get "matched_rows" r = Some (VInt 3).
Proof.
  intros Hinit Hload Hin H0 H1 H2 (Hinfo & Hname & Hmk & Hwb & Hwr & Hcl).
  destruct (Hinfo "EU") as [ieu Hieu]. destruct (Hname ieu) as [feu Hfeu].
  destruct (Hinfo "VIP") as [ivip Hivip]. destruct (Hname ivip) as [fvip Hfvip].
  unfold split_excel_by_groups.
  step Hinit. step Hload. step H0.
  step Hieu. step Hfeu. step Hmk. step Hwb. step Hwr. step H1. step H2.
  step Hivip. step Hfvip. step Hmk. step Hwb. step Hwr. step Hin. step Hcl.
  split; [reflexivity|]. split; [reflexivity|].
  split; [|split; reflexivity].
  eexists _, _, _. split; [reflexivity|]. repeat split.
Qed.

End Scenario.

(** ** Where the run stops *)

Section Failures.

Variable Info : Type.
Variable env : Env Info.

Lemma for_each_raises {A : Type} (xs1 : list A) x xs2 (body : A -> M unit) s sa e sb :
  for_each xs1 body s = (Ok tt, sa) ->
  body x sa = (Raise e, sb) ->
  for_each (xs1 ++ x :: xs2) body s = (Raise e, sb).
Proof.
  revert s. induction xs1 as [|y xs1 IH]; intros s H Hx.
  - injection H as <-. simpl. unfold bind. now rewrite Hx.
  - simpl in H |- *.
    apply bind_inv in H as [([] & s0 & H0 & H)|(e0 & _ & He)]; [|discriminate].
    erewrite bind_Ok by exact H0. eauto.
Qed.

(** What [run] returns when its [try] block raises. *)
Lemma run_failure s e s' :
  run_try env s = (Raise e, s') -> run env s = (failure e, s').
Proof. unfold run. now intros ->. Qed.

(** The [try] block up to the loop over the rows. *)
Lemma run_try_rows s sheet :
  ensure_initialized env = Ok tt ->
  load_workbook env (input_path s) = Ok sheet ->
  run_try env s =
  (processed_rows <- row_loop env (skipn 1 sheet) 0 ;;
   call EvCloseInput (input_close env) ;;;
   _finalize env processed_rows)
    (logged [EvInit; EvLoad (input_path s)] s).
Proof.
  intros Hinit Hload. unfold run_try.
  unfold bind at 1. unfold call at 1. rewrite Hinit.
  unfold bind at 1. unfold gets at 1.
  unfold bind at 1. unfold call at 1. simpl input_path. rewrite Hload.
  change [EvInit; EvLoad (input_path s)]
    with ([EvInit] ++ [EvLoad (input_path s)])%list.
  rewrite <- logged_logged. reflexivity.
Qed.

(** C1, as the code has it.  A failure to create or to write the target of
    one group is not isolated.  When [dispatch] raises for a group of a row
    (the writer cannot be created, or the row cannot be written), the
    groups after it get nothing of that row, the rows after it are not
    read, nothing is closed, and [run] returns the failure dictionary built
    from the exception; the attributes stay as they were when it was
    raised. *)
Theorem writer_failure_ends_run s sheet pre row rest m s1 gs1 g gs2 sa e sb :
  ensure_initialized env = Ok tt ->
  load_workbook env (input_path s) = Ok sheet ->
  skipn 1 sheet = (pre ++ row :: rest)%list ->
  row_loop env pre 0 (logged [EvInit; EvLoad (input_path s)] s) = (Ok m, s1) ->
  get_groups_for_city env (n_lookups s1) (city_of row) = Ok (gs1 ++ g :: gs2)%list ->
  for_each gs1 (dispatch env row) (logged [EvLookup (city_of row)] s1) = (Ok tt, sa) ->
  dispatch env row g sa = (Raise e, sb) ->
  run env s = (failure e, sb) /\
  ~ succeeded (failure e) /\
  get "error" (failure e) = Some (VStr (str e)) /\
  get "total_rows" (failure e) = Some (VInt 0) /\
  get "output_files" (failure e) = Some (VFiles empty).
Proof.
  intros Hinit Hload Hrows Hpre Hgs Hfor Hd.
  split; [|split; [apply failure_not_succeeded|repeat split]].
  apply run_failure. rewrite (run_try_rows _ _ Hinit Hload), Hrows.
  apply bind_Raise.
  eapply row_loop_raises; [exact Hpre|].
  rewrite process_row_unfold, Hgs.
  replace (is_empty (gs1 ++ g :: gs2)) with false by now destruct gs1.
  simpl andb. cbv iota.
  eapply for_each_raises; eauto.
Qed.

(** The loop of [_process_row] only adds to [calls]. *)
Lemma dispatch_all_calls row gs s o s' :
  for_each gs (dispatch env row) s = (o, s') ->
  exists evs, calls s' = (calls s ++ evs)%list.
Proof.
  apply (relates_dispatch_all _ env
           (fun s s' => exists evs, calls s' = (calls s ++ evs)%list)).
  - intros s0. exists []. now rewrite app_nil_r.
  - intros s1 s2 s3 [evs1 H1] [evs2 H2]. exists (evs1 ++ evs2)%list.
    now rewrite H2, H1, app_assoc.
  - intros ev s0 _. simpl. eauto.
  - intros f s0. exists []. simpl. now rewrite app_nil_r.
  - intros f s0. exists []. simpl. now rewrite app_nil_r.
  - intros f s0. exists []. simpl. now rewrite app_nil_r.
  - intros f s0. exists []. simpl. now rewrite app_nil_r.
Qed.

(** C3, as the code has it.  [run] returns one of two dictionaries: the
    success dictionary, with the keys [success], [total_rows],
    [matched_rows], [output_files], [unmatched_cities] (the unmatched keys,
    as a list of cells) and [stats], and no [error]; or the failure
    dictionary, with the keys [success], [error], [total_rows] and
    [output_files] only. *)
Theorem run_result_fields s :
  (exists n m fs l st,
     fst (run env s) =
       [ ("success", VBool true); ("total_rows", VInt n);
         ("matched_rows", VInt m); ("output_files", VFiles fs);
         ("unmatched_cities", VList l); ("stats", VCounts st) ]) \/
  (exists e,
     fst (run env s) =
       [ ("success", VBool false); ("error", VStr (str e));
         ("total_rows", VInt 0); ("output_files", VFiles empty) ]).
Proof.
  unfold run. destruct (run_try env s) as [[r|e] s'] eqn:H.
  - left. apply run_try_inv in H as (_ & n & s1 & fs & _ & _ & _ & _ & _ & ->).
    simpl. eauto 10.
  - right. exists e. reflexivity.
Qed.

(** C8, as the code has it.  When the [try] block of [run] raises (which it
    can only do before [_finalize], see [finalize_never_raises]), [run]
    returns the failure dictionary: [success] false, [error] the text of
    the exception, which is not empty when the exception has a text,
    [total_rows] 0, [output_files] empty, and none of [matched_rows],
    [unmatched_cities], [stats]. *)
Theorem failure_before_finalize s e s' :
  run_try env s = (Raise e, s') ->
  let r := fst (run env s) in
  get "success" r = Some (VBool false) /\
  get "error" r = Some (VStr (str e)) /\
  (str e <> "" -> get "error" r <> Some (VStr "")) /\
  get "total_rows" r = Some (VInt 0) /\
  get "output_files" r = Some (VFiles empty) /\
  get "matched_rows" r = None /\
  get "unmatched_cities" r = None /\
  get "stats" r = None.
Proof.
  intros H r. subst r. rewrite (run_failure _ _ _ H). simpl.
  repeat split. intros Hne [= Heq]. contradiction.
Qed.

End Failures.

(** ** Runs that end in success *)

Section Progress.

Variable Info : Type.
Variable env : Env Info.
Hypothesis reliable : writers_reliable env.

Lemma ensure_returns g s :
  exists s', _ensure_group_writer env g s = (Ok tt, s').
Proof.
  destruct reliable as (Hinfo & Hname & Hmk & Hwb & Hwr & _).
  destruct (Hinfo g) as [info Hi]. destruct (Hname info) as [f Hf].
  unfold _ensure_group_writer.
  destruct (mem g (writers s)); [eauto|].
  unfold bind, call, gets, modify.
  rewrite Hi, Hf, Hmk, Hwb. simpl. rewrite Hwr. eauto.
Qed.

Lemma dispatch_returns row g s :
  consistent s -> exists s', dispatch env row g s = (Ok tt, s').
Proof.
  intros Hc.
  destruct reliable as (_ & _ & _ & _ & Hwr & _).
  destruct (ensure_returns g s) as [s1 H1].
  destruct (dispatch env row g s) as [o s'] eqn:E.
  destruct (dispatch_cases _ _ _ _ _ _ _ Hc E)
    as [(e & s2 & _ & H2 & _)
       |(s2 & ws & c & _ & _ & _ & [(e & H2 & _)|(_ & -> & _)])].
  - rewrite H1 in H2. discriminate.
  - rewrite Hwr in H2. discriminate.
  - eauto.
Qed.

Lemma dispatch_all_returns row gs s :
  consistent s -> exists s', for_each gs (dispatch env row) s = (Ok tt, s').
Proof.
  revert s. induction gs as [|g gs IH]; intros s Hc; simpl.
  - unfold ret. eauto.
  - destruct (dispatch_returns row g s Hc) as [s1 H1].
    erewrite bind_Ok by exact H1.
    apply IH. eapply dispatch_consistent; eauto.
Qed.

Hypothesis resolver_answers :
  forall n c, exists gs, get_groups_for_city env n c = Ok gs.

Lemma process_row_returns row s :
  consistent s -> exists s', _process_row env row s = (Ok tt, s').
Proof.
  intros Hc. rewrite process_row_unfold.
  destruct (resolver_answers (n_lookups s) (city_of row)) as [gs ->].
  apply dispatch_all_returns.
  destruct (is_empty gs && truthy (city_of row));
    auto using consistent_with_unmatched, consistent_logged.
Qed.

Lemma row_loop_returns rows n s :
  consistent s ->
  exists s', row_loop env rows n s = (Ok (n + Z.of_nat (length rows)), s').
Proof.
  revert n s. induction rows as [|row rows IH]; intros n s Hc.
  - simpl. unfold ret. rewrite Z.add_0_r. eauto.
  - destruct (process_row_returns row s Hc) as [s1 H1].
    cbn [row_loop]. erewrite bind_Ok by exact H1.
    destruct (IH (n + 1) s1) as [s' H]; [eapply process_row_consistent; eauto|].
    exists s'. rewrite H. simpl length.
    replace (n + 1 + Z.of_nat (length rows)) with (n + Z.of_nat (S (length rows)))
      by lia.
    reflexivity.
Qed.

(** With collaborators that answer, every run ends in success. *)
Lemma run_succeeds s sheet :
  ensure_initialized env = Ok tt ->
  load_workbook env (input_path s) = Ok sheet ->
  input_close env = Ok tt ->
  consistent s ->
  succeeded (fst (run env s)).
Proof.
  intros Hinit Hload Hin Hc.
  unfold run. rewrite (run_try_rows _ _ _ _ Hinit Hload).
  destruct (row_loop_returns (skipn 1 sheet) 0
              (logged [EvInit; EvLoad (input_path s)] s)) as [s1 H1];
    [now apply consistent_logged|].
  erewrite bind_Ok by exact H1.
  unfold bind at 1. unfold call at 1. rewrite Hin.
  destruct (finalize_returns _ env (0 + Z.of_nat (length (skipn 1 sheet)))
              (with_calls (fun l => (l ++ [EvCloseInput])%list) s1))
    as (fs & s' & _ & ->).
  reflexivity.
Qed.

End Progress.

(** ** The properties on the sample collaborators *)

Lemma sample_groups_sets n c gs : sample_groups n c = Ok gs -> NoDup gs.
Proof.
  destruct n as [|[|[|n]]]; intros [= <-]; repeat constructor; simpl;
    intuition discriminate.
Qed.

Lemma scenario_env_reliable : writers_reliable scenario_env.
Proof. repeat split; simpl; eauto. Qed.

Lemma ensure_group_writer_idempotent_witness :
  get "EU" (row_counts after_rows) = Some 3 /\
  mem "EU" (writers after_rows) = true /\
  _ensure_group_writer scenario_env "EU" after_rows = (Ok tt, after_rows).
Proof.
  split; [vm_compute; reflexivity|].
  apply (ensure_group_writer_idempotent _ scenario_env "EU" after_rows).
  left. vm_compute. reflexivity.
Defined.

Lemma total_rows_counts_data_rows_witness :
  succeeded (fst (run scenario_env (init "in.xlsx" sample_headers))) /\
  get "total_rows" (fst (run scenario_env (init "in.xlsx" sample_headers)))
  = Some (VInt 3).
Proof.
  split; [vm_compute; reflexivity|].
  apply (total_rows_counts_data_rows _ scenario_env
           (init "in.xlsx" sample_headers) sample_sheet
           (fst (run scenario_env (init "in.xlsx" sample_headers)))
           (snd (run scenario_env (init "in.xlsx" sample_headers))));
    vm_compute; reflexivity.
Defined.

Lemma stats_are_final_cursors_witness :
  succeeded (fst (run scenario_env (init "in.xlsx" sample_headers))) /\
  exists st fs,
    get "stats" (fst (run scenario_env (init "in.xlsx" sample_headers)))
    = Some (VCounts st) /\
    get "output_files" (fst (run scenario_env (init "in.xlsx" sample_headers)))
    = Some (VFiles fs) /\
    forall g d, get g fs = Some d -> get g st = Some (row_count d + 1).
Proof.
  assert (Hrun : run scenario_env (init "in.xlsx" sample_headers)
                 = (fst (run scenario_env (init "in.xlsx" sample_headers)),
                    snd (run scenario_env (init "in.xlsx" sample_headers))))
    by (vm_compute; reflexivity).
  assert (Hs : succeeded (fst (run scenario_env (init "in.xlsx" sample_headers))))
    by (vm_compute; reflexivity).
  split; [exact Hs|].
  destruct (stats_are_final_cursors _ scenario_env "in.xlsx" sample_headers
              _ _ Hrun Hs)
    as (st & fs & H1 & H2 & _ & _ & _ & H3).
  exists st, fs. auto.
Defined.

Lemma after_rows_consistent : consistent after_rows.
Proof.
  unfold after_rows.
  destruct (row_loop stuck_close_env (skipn 1 sample_sheet) 0
              (init "in.xlsx" sample_headers)) as [o s'] eqn:E.
  eapply row_loop_consistent; [|exact E]. apply consistent_init.
Qed.

Lemma close_failure_skips_group_witness :
  wb_close stuck_close_env "EU" = Raise (mkExn "cannot close") /\
  exists r fs s',
    _finalize stuck_close_env 3 after_rows = (Ok r, s') /\
    succeeded r /\
    get "error" r = None /\
    get "output_files" r = Some (VFiles fs) /\
    get "EU" fs = None.
Proof.
  split; [reflexivity|].
  destruct (close_failure_skips_group _ stuck_close_env 3 after_rows
              "EU" (mkWorkbook "out/EU.xlsx" false) (mkExn "cannot close")
              after_rows_consistent (or_introl eq_refl) eq_refl)
    as (r & fs & s' & H1 & H2 & H3 & H4 & H5 & _).
  exists r, fs, s'. auto.
Defined.

Lemma three_row_scenario_witness :
  get "total_rows"
    (split_excel_by_groups scenario_env "in.xlsx" ["Id"; "City"; "Value"])
  = Some (VInt 3) /\
  get "matched_rows"
    (split_excel_by_groups scenario_env "in.xlsx" ["Id"; "City"; "Value"])
  = Some (VInt 3).
Proof.
  destruct (three_row_scenario _ scenario_env "in.xlsx"
              [CStr "Id"; CStr "City"; CStr "Value"]
              eq_refl eq_refl eq_refl eq_refl eq_refl eq_refl
              scenario_env_reliable)
    as (_ & H1 & _ & _ & H2).
  split; assumption.
Defined.

Lemma writer_failure_ends_run_witness :
  ws_write_row disk_full_env "EU" 1 [CInt 1; CStr "Paris"; CInt 10]
  = Raise (mkExn "disk full") /\
  fst (run disk_full_env (init "in.xlsx" sample_headers))
  = failure (mkExn "disk full").
Proof.
  split; [reflexivity|].
  refine (f_equal fst
            (proj1 (writer_failure_ends_run _ disk_full_env
                      (init "in.xlsx" sample_headers) sample_sheet
                      [] [CInt 1; CStr "Paris"; CInt 10]
                      [[CInt 2; CStr "Lagos"; CInt 5];
                       [CInt 3; CStr "Paris"; CInt 7]]
                      0
                      (logged [EvInit; EvLoad "in.xlsx"]
                         (init "in.xlsx" sample_headers))
                      [] "EU" []
                      (logged [EvInit; EvLoad "in.xlsx"; EvLookup (CStr "Paris")]
                         (init "in.xlsx" sample_headers))
                      (mkExn "disk full")
                      (snd (run disk_full_env (init "in.xlsx" sample_headers)))
                      _ _ _ _ _ _ _)));
    vm_compute; reflexivity.
Defined.

Lemma failure_before_finalize_witness :
  run_try no_file_env (init "missing.xlsx" sample_headers)
  = (Raise (mkExn "[Errno 2] No such file or directory: 'missing.xlsx'"),
     logged [EvInit; EvLoad "missing.xlsx"] (init "missing.xlsx" sample_headers)) /\
  get "error" (fst (run no_file_env (init "missing.xlsx" sample_headers)))
  = Some (VStr "[Errno 2] No such file or directory: 'missing.xlsx'") /\
  get "total_rows" (fst (run no_file_env (init "missing.xlsx" sample_headers)))
  = Some (VInt 0).
Proof.
  assert (H : run_try no_file_env (init "missing.xlsx" sample_headers)
              = (Raise (mkExn "[Errno 2] No such file or directory: 'missing.xlsx'"),
                 logged [EvInit; EvLoad "missing.xlsx"]
                   (init "missing.xlsx" sample_headers)))
    by (vm_compute; reflexivity).
  split; [exact H|].
  destruct (failure_before_finalize _ no_file_env _ _ _ H)
    as (_ & H1 & _ & H2 & _).
  split; assumption.
Defined.

(** ** Where the code departs from the specification *)

(** C1 does not hold.  The first data row cannot be written to the sheet of
    EU, while every write to VIP would go through: the run does not end in
    success, it returns the failure dictionary; the two rows after the
    failing one are never looked up, and VIP never gets a writer. *)
Lemma writer_failure_not_isolated :
  ws_write_row disk_full_env "EU" 1 [CInt 1; CStr "Paris"; CInt 10]
  = Raise (mkExn "disk full") /\
  (forall i row, ws_write_row disk_full_env "VIP" i row = Ok tt) /\
  ~ succeeded (split_excel_by_groups disk_full_env "in.xlsx" sample_headers) /\
  split_excel_by_groups disk_full_env "in.xlsx" sample_headers
  = failure (mkExn "disk full") /\
  n_lookups (snd (run disk_full_env (init "in.xlsx" sample_headers))) = 1%nat /\
  mem "VIP" (writers (snd (run disk_full_env (init "in.xlsx" sample_headers))))
  = false.
Proof.
  split; [reflexivity|]. split; [reflexivity|].
  split; [vm_compute; discriminate|].
  repeat split; vm_compute; reflexivity.
Qed.

(** C2 does not hold.  The only data row has one cell, so its key is missing;
    the resolver is asked all the same, with [None], and as it answers with
    a group the row is written to that group's sheet. *)
Lemma missing_key_is_looked_up :
  city_of [CInt 7] = CNone /\
  filter is_lookup (calls (snd (run catch_all_env (init "in.xlsx" ["Id"]))))
  = [EvLookup CNone] /\
  get "ALL" (sheets (snd (run catch_all_env (init "in.xlsx" ["Id"]))))
  = Some (mkWorksheet "Veriler" [(0, [CStr "Id"]); (1, [CInt 7])]) /\
  get "output_files" (split_excel_by_groups catch_all_env "in.xlsx" ["Id"])
  = Some (VFiles [("ALL", mkFileDesc "ALL.xlsx" "out/ALL.xlsx" 1)]) /\
  get "total_rows" (split_excel_by_groups catch_all_env "in.xlsx" ["Id"])
  = Some (VInt 1).
Proof. repeat split; vm_compute; reflexivity. Qed.

(** C3 does not hold.  With no input file the returned dictionary has no
    [matched_rows], no [stats] and no list of unmatched keys. *)
Lemma failure_result_lacks_fields :
  get "success" (split_excel_by_groups no_file_env "missing.xlsx" sample_headers)
  = Some (VBool false) /\
  get "matched_rows" (split_excel_by_groups no_file_env "missing.xlsx" sample_headers)
  = None /\
  get "stats" (split_excel_by_groups no_file_env "missing.xlsx" sample_headers)
  = None /\
  get "unmatched_cities" (split_excel_by_groups no_file_env "missing.xlsx" sample_headers)
  = None /\
  get "unmatched_keys" (split_excel_by_groups no_file_env "missing.xlsx" sample_headers)
  = None.
Proof. repeat split; vm_compute; reflexivity. Qed.

(** C8 does not hold.  The lookup raises an exception that has no text: the
    run fails before [_finalize] and the [error] of the returned dictionary
    is the empty text. *)
Lemma failure_with_empty_error :
  get_groups_for_city timeout_env 0 (CStr "Paris") = Raise (mkExn "") /\
  get "success" (split_excel_by_groups timeout_env "in.xlsx" sample_headers)
  = Some (VBool false) /\
  get "error" (split_excel_by_groups timeout_env "in.xlsx" sample_headers)
  = Some (VStr "").
Proof. repeat split; vm_compute; reflexivity. Qed.

(** ** Invariants of a whole run *)

Section Invariants.

Variable Info : Type.
Variable env : Env Info.

(** What holds before a run and is kept by every call to a collaborator, by
    every row and by the closing of a workbook, holds after the run. *)
Lemma close_loop_preserves (P : ExcelSplitter -> Prop) :
  (forall g s, P s -> P (logged [EvClose g] s)) ->
  (forall g wb s, P s -> P (closed_at g wb s)) ->
  forall its out s o s', P s -> close_loop env its out s = (o, s') -> P s'.
Proof.
  intros Hlog Hclose its.
  induction its as [|[g wb] its IH]; intros out s o s' HP.
  - simpl. intros [= _ <-]. exact HP.
  - rewrite close_loop_step.
    destruct (wb_close env g); [destruct (get g (row_counts s))|];
      apply IH; auto.
Qed.

Lemma finalize_preserves (P : ExcelSplitter -> Prop) :
  (forall g s, P s -> P (logged [EvClose g] s)) ->
  (forall g wb s, P s -> P (closed_at g wb s)) ->
  forall n s o s', P s -> _finalize env n s = (o, s') -> P s'.
Proof.
  intros Hlog Hclose n s o s' HP H.
  destruct (finalize_returns _ env n s) as (fs & s1 & Hloop & Hfin).
  rewrite Hfin in H. injection H as _ <-.
  eapply close_loop_preserves; eauto.
Qed.

Lemma row_loop_preserves (P : ExcelSplitter -> Prop) :
  (forall row s o s', P s -> _process_row env row s = (o, s') -> P s') ->
  forall rows n s o s', P s -> row_loop env rows n s = (o, s') -> P s'.
Proof.
  intros Hrow rows.
  induction rows as [|row rows IH]; intros n s o s' HP H; simpl in H.
  - injection H as _ <-. exact HP.
  - apply bind_inv in H as [([] & s1 & H1 & H)|(e & H1 & _)]; eauto.
Qed.

(** The attributes when the [try] block of [run] raises are those of some
    moment before [_finalize]. *)
Lemma run_try_raises_preserves (P : ExcelSplitter -> Prop) :
  (forall ev s, is_close ev = false -> P s -> P (logged [ev] s)) ->
  (forall row s o s', P s -> _process_row env row s = (o, s') -> P s') ->
  forall s e s', P s -> run_try env s = (Raise e, s') -> P s'.
Proof.
  intros Hlog Hrow s e s' HP H. unfold run_try in H.
  apply bind_inv in H as [([] & s1 & H1 & H)|(e1 & H1 & _)];
    apply call_inv in H1 as [_ ->]; [|auto].
  apply bind_inv in H as [(path & s2 & H2 & H)|(e2 & H2 & _)];
    [|discriminate].
  injection H2 as <- <-.
  apply bind_inv in H as [(sheet & s3 & H3 & H)|(e3 & H3 & _)];
    apply call_inv in H3 as [_ ->]; [|auto].
  assert (HP3 : P (logged [EvLoad (input_path s)] (logged [EvInit] s)))
    by auto.
  apply bind_inv in H as [(n & s4 & H4 & H)|(e4 & H4 & _)];
    [|eapply row_loop_preserves; [exact Hrow|exact HP3|exact H4]].
  assert (HP4 : P s4)
    by (eapply row_loop_preserves; [exact Hrow|exact HP3|exact H4]).
  apply bind_inv in H as [([] & s5 & H5 & H)|(e5 & H5 & _)];
    apply call_inv in H5 as [_ ->]; [|auto].
  now apply finalize_never_raises in H.
Qed.

Lemma run_preserves (P : ExcelSplitter -> Prop) :
  (forall ev s, P s -> P (logged [ev] s)) ->
  (forall row s o s', P s -> _process_row env row s = (o, s') -> P s') ->
  (forall g wb s, P s -> P (closed_at g wb s)) ->
  forall s r s', P s -> run env s = (r, s') -> P s'.
Proof.
  intros Hlog Hrow Hclose s r s' HP H.
  apply run_cases in H as [H|(e & H & _)];
    [|eapply run_try_raises_preserves; [| | |exact H]; auto].
  apply run_try_inv in H
    as (sheet & n & s1 & fs & _ & _ & Hloop & _ & Hcl & _).
  eapply close_loop_preserves; [|exact Hclose| |exact Hcl]; [auto|].
  apply Hlog. eapply row_loop_preserves; [exact Hrow| |exact Hloop].
  change [EvInit; EvLoad (input_path s)]
    with ([EvInit] ++ [EvLoad (input_path s)])%list.
  rewrite <- logged_logged. auto.
Qed.

End Invariants.

(** ** What the sheets hold *)

Section Sheets.

Variable Info : Type.
Variable env : Env Info.

Lemma numbered_app start rows row :
  numbered start (rows ++ [row])
  = (numbered start rows ++ [(start + Z.of_nat (length rows), row)])%list.
Proof.
  revert start. induction rows as [|r rows IH]; intros start;
    cbn [numbered app length].
  - simpl. now rewrite Z.add_0_r.
  - rewrite IH, Nat2Z.inj_succ.
    replace (start + 1 + Z.of_nat (length rows))
      with (start + Z.succ (Z.of_nat (length rows))) by lia.
    reflexivity.
Qed.

Lemma map_snd_numbered start rows : map snd (numbered start rows) = rows.
Proof.
  revert start. induction rows as [|r rows IH]; intros start; simpl; auto.
  now rewrite IH.
Qed.

Lemma well_formed_logged evs s :
  sheets_well_formed s -> sheets_well_formed (logged evs s).
Proof. intros H g ws. apply H. Qed.

Lemma well_formed_registered g p s :
  sheets_well_formed s -> sheets_well_formed (registered g p s).
Proof.
  intros H g' ws. unfold registered, with_row_counts, with_sheets. simpl.
  rewrite get_assign. destruct (String.eqb g g').
  - intros [= <-]. reflexivity.
  - apply H.
Qed.

Lemma data_lines_app ws c row :
  lines ws <> [] ->
  data_lines (mkWorksheet (ws_name ws) (lines ws ++ [(c, row)]))
  = (data_lines ws ++ [(c, row)])%list.
Proof. unfold data_lines. simpl. destruct (lines ws); [congruence|reflexivity]. Qed.

Lemma well_formed_appended g ws c row s :
  consistent s -> sheets_well_formed s ->
  get g (sheets s) = Some ws -> get g (row_counts s) = Some c ->
  sheets_well_formed (appended g ws c row s).
Proof.
  intros Hc Hwf Hws Hrc g' ws'.
  unfold appended, with_matched_rows, with_row_counts, with_sheets. simpl.
  rewrite get_assign. destruct (String.eqb g g'); [|apply Hwf].
  intros [= <-].
  destruct (cons_lines Hc _ Hws Hrc) as [Hlen Hne].
  rewrite data_lines_app by exact Hne. cbn [lines].
  rewrite (Hwf g ws Hws) at 1.
  rewrite map_app. cbn [map snd]. rewrite numbered_app, length_map.
  replace (1 + Z.of_nat (length (data_lines ws))) with c by lia.
  reflexivity.
Qed.

Lemma ensure_well_formed g s o s' :
  sheets_well_formed s -> _ensure_group_writer env g s = (o, s') ->
  sheets_well_formed s'.
Proof.
  intros Hwf H.
  apply ensure_cases in H
    as [(_ & _ & ->)|[(_ & p & evs & _ & ->)|(_ & e & evs & _ & ->)]];
    auto using well_formed_logged, well_formed_registered.
Qed.

Lemma dispatch_well_formed row g s o s' :
  consistent s -> sheets_well_formed s ->
  dispatch env row g s = (o, s') -> sheets_well_formed s'.
Proof.
  intros Hc Hwf H.
  destruct (dispatch_cases _ _ _ _ _ _ _ Hc H)
    as [(e & s1 & _ & H1 & ->)
       |(s1 & ws & c & H1 & Hws & Hrc & [(e & _ & _ & ->)|(_ & _ & ->)])];
    assert (Hwf1 : sheets_well_formed s1) by (eapply ensure_well_formed; eauto);
    auto using well_formed_logged.
  apply well_formed_appended; auto. eapply ensure_consistent; eauto.
Qed.

Lemma sound_init p h : sound (init p h).
Proof. split; [apply consistent_init|]. intros g ws. discriminate. Qed.

Lemma sound_logged evs s : sound s -> sound (logged evs s).
Proof. intros [H1 H2]. split; auto using consistent_logged, well_formed_logged. Qed.

Lemma dispatch_all_sound row gs s o s' :
  sound s -> for_each gs (dispatch env row) s = (o, s') -> sound s'.
Proof.
  revert s. induction gs as [|g gs IH]; simpl; intros s Hs H.
  - injection H as _ <-. exact Hs.
  - assert (Hstep : forall o1 s1, dispatch env row g s = (o1, s1) -> sound s1).
    { intros o1 s1 H1. destruct Hs as [Hc Hwf]. split.
      - eapply dispatch_consistent; eauto.
      - eapply dispatch_well_formed; eauto. }
    apply bind_inv in H as [([] & s1 & H1 & H)|(e & H1 & _)]; eauto.
Qed.

Lemma process_row_sound row s o s' :
  sound s -> _process_row env row s = (o, s') -> sound s'.
Proof.
  intros Hs. rewrite process_row_unfold.
  destruct (get_groups_for_city env (n_lookups s) (city_of row)) as [gs|e].
  - apply dispatch_all_sound.
    destruct (is_empty gs && truthy (city_of row)); [|now apply sound_logged].
    destruct (sound_logged [EvLookup (city_of row)] s Hs) as [H1 H2].
    split; [now apply consistent_with_unmatched|exact H2].
  - intros [= _ <-]. now apply sound_logged.
Qed.

Lemma sound_closed_at g wb s :
  mem g (writers s) = true -> sound s -> sound (closed_at g wb s).
Proof.
  intros Hm [[H1 H2 H3] Hwf]. split; [split|]; simpl; auto.
  - intros g'. rewrite mem_assign, H1.
    destruct (String.eqb g g') eqn:E; auto.
    apply String.eqb_eq in E. now subst.
  - intros g'. rewrite mem_assign, H2.
    destruct (String.eqb g g') eqn:E; auto.
    apply String.eqb_eq in E. now subst.
Qed.

(** The state in which [run] leaves the object, whatever it returns. *)
Lemma run_sound p h r s' :
  run env (init p h) = (r, s') -> sound s'.
Proof.
  intros H.
  apply run_cases in H as [H|(e & H & _)].
  - apply run_try_inv in H
      as (sheet & n & s1 & fs & _ & _ & Hloop & _ & Hcl & _).
    assert (Hs1 : sound s1).
    { eapply (row_loop_preserves _ env sound); [|
        |exact Hloop]; [exact process_row_sound|].
      apply sound_logged, sound_init. }
    destruct Hs1 as [Hc1 Hwf1].
    destruct (close_loop_counters _ _ _ _ _ _ _ Hcl) as (_ & Hsh & _).
    split.
    + eapply close_loop_consistent; [|exact Hcl]. now apply consistent_logged.
    + intros g ws. rewrite Hsh.
      assert (Hh : headers s' = headers s1).
      { eapply (close_loop_preserves _ env (fun s => headers s = headers s1));
          [| | |exact Hcl]; auto. }
      rewrite Hh. apply Hwf1.
  - eapply (run_try_raises_preserves _ env sound); [| | |exact H].
    + intros ev s _. apply sound_logged.
    + exact process_row_sound.
    + apply sound_init.
Qed.

(** X1. Whatever [run] returns, every sheet it leaves holds the caller's
    headers as its line 0, written once, and below it the data rows at the
    indices 1, 2, 3, ... without a gap; the cursor of the group is the index
    after the last line. *)
Theorem header_then_numbered_rows p h r s' g ws :
  run env (init p h) = (r, s') ->
  get g (sheets s') = Some ws ->
  lines ws = (0, map CStr h) :: numbered 1 (map snd (data_lines ws)) /\
  get g (row_counts s') = Some (Z.of_nat (length (lines ws))).
Proof.
  intros H Hws.
  assert (Hh : headers s' = h).
  { eapply (run_preserves _ env (fun s => headers s = h)); [| | | |exact H];
      auto.
    intros row s o s1 Hs H1. rewrite <- Hs.
    rewrite process_row_unfold in H1.
    destruct (get_groups_for_city env (n_lookups s) (city_of row)) as [gs|e].
    - eapply (relates_dispatch_all _ env (fun s s' => headers s' = headers s))
        in H1; auto; try congruence.
      rewrite H1. now destruct (is_empty gs && truthy (city_of row)).
    - now injection H1 as _ <-. }
  destruct (run_sound _ _ _ _ H) as [Hc Hwf].
  split.
  - rewrite <- Hh. exact (Hwf g ws Hws).
  - assert (Hm : mem g (row_counts s') = true).
    { rewrite (cons_counts Hc), <- (cons_sheets Hc). apply mem_true_get. eauto. }
    apply mem_true_get in Hm as [c Hrc]. rewrite Hrc. f_equal.
    destruct (cons_lines Hc _ Hws Hrc) as [-> Hne].
    unfold data_lines. destruct (lines ws); [congruence|]. simpl. lia.
Qed.

End Sheets.

Section SheetRows.

Variable Info : Type.
Variable env : Env Info.

Lemma ensure_sheet_rows g s s' g' :
  consistent s -> _ensure_group_writer env g s = (Ok tt, s') ->
  sheet_rows s' g' = sheet_rows s g'.
Proof.
  intros Hc H.
  apply ensure_cases in H
    as [(_ & _ & ->)|[(Hm & p & evs & _ & ->)|(_ & e & evs & He & _)]];
    auto; [|discriminate].
  unfold sheet_rows, registered, with_row_counts, with_sheets. simpl.
  rewrite get_assign. destruct (String.eqb g g') eqn:E; auto.
  apply String.eqb_eq in E. subst g'.
  rewrite <- (cons_sheets Hc) in Hm. apply mem_false_get in Hm.
  rewrite Hm. reflexivity.
Qed.

Lemma dispatch_sheet_rows row g s s' g' :
  consistent s -> dispatch env row g s = (Ok tt, s') ->
  sheet_rows s' g'
  = (sheet_rows s g' ++ if String.eqb g g' then [row] else [])%list.
Proof.
  intros Hc H.
  destruct (dispatch_cases _ _ _ _ _ _ _ Hc H)
    as [(e & s1 & He & _)
       |(s1 & ws & c & H1 & Hws & Hrc & [(e & _ & He & _)|(_ & _ & ->)])];
    try discriminate.
  assert (Hc1 : consistent s1) by (eapply ensure_consistent; eauto).
  rewrite <- (ensure_sheet_rows _ _ _ g' Hc H1).
  unfold sheet_rows, appended, with_matched_rows, with_row_counts, with_sheets.
  simpl. rewrite get_assign. destruct (String.eqb g g') eqn:E.
  - apply String.eqb_eq in E. subst g'. rewrite Hws.
    destruct (cons_lines Hc1 _ Hws Hrc) as [_ Hne].
    rewrite data_lines_app by exact Hne. now rewrite map_app.
  - now rewrite app_nil_r.
Qed.

Lemma dispatch_all_sheet_rows row gs s s' g :
  consistent s -> for_each gs (dispatch env row) s = (Ok tt, s') ->
  sheet_rows s' g
  = (sheet_rows s g ++ repeat row (count_occ string_dec gs g))%list.
Proof.
  revert s. induction gs as [|g0 gs IH]; intros s Hc H.
  - injection H as <-. simpl. now rewrite app_nil_r.
  - simpl in H.
    apply bind_inv in H as [([] & s1 & H1 & H)|(e & H1 & He)]; [|discriminate].
    assert (Hc1 : consistent s1) by (eapply dispatch_consistent; eauto).
    rewrite (IH _ Hc1 H), (dispatch_sheet_rows _ _ _ _ g Hc H1), <- app_assoc.
    f_equal. simpl count_occ.
    destruct (string_dec g0 g) as [->|Hne].
    + now rewrite String.eqb_refl.
    + apply String.eqb_neq in Hne. now rewrite Hne.
Qed.

Lemma process_row_sheet_rows row s s' g :
  consistent s -> _process_row env row s = (Ok tt, s') ->
  sheet_rows s' g
  = (sheet_rows s g
     ++ repeat row (count_occ string_dec (resolved env (n_lookups s) row) g))%list.
Proof.
  intros Hc. rewrite process_row_unfold. unfold resolved.
  destruct (get_groups_for_city env (n_lookups s) (city_of row)) as [gs|e];
    [|discriminate].
  intros H. apply dispatch_all_sheet_rows with (g := g) in H.
  - rewrite H. now destruct (is_empty gs && truthy (city_of row)).
  - destruct (is_empty gs && truthy (city_of row));
      auto using consistent_with_unmatched, consistent_logged.
Qed.

Lemma row_loop_sheet_rows rows n s m s' g :
  consistent s -> row_loop env rows n s = (Ok m, s') ->
  sheet_rows s' g = (sheet_rows s g ++ rows_for env g (n_lookups s) rows)%list.
Proof.
  revert n s. induction rows as [|row rows IH]; intros n s Hc H.
  - injection H as _ <-. simpl. now rewrite app_nil_r.
  - simpl in H.
    apply bind_inv in H as [([] & s1 & H1 & H)|(e & H1 & He)]; [|discriminate].
    assert (Hc1 : consistent s1) by (eapply process_row_consistent; eauto).
    rewrite (IH _ _ Hc1 H), (process_row_sheet_rows _ _ _ g Hc H1).
    rewrite (process_row_lookups _ env _ _ _ _ H1).
    simpl rows_for. now rewrite app_assoc.
Qed.

(** X2. After a run that ends in success the sheet of every group holds,
    below the header, exactly the input rows the resolver sent to that
    group, in the order of the input (a row once for every time the group
    is listed for it); a group no row was sent to has no rows. *)
Theorem sheets_hold_resolved_rows p h sheet r s' g :
  load_workbook env p = Ok sheet ->
  run env (init p h) = (r, s') ->
  succeeded r ->
  sheet_rows s' g = rows_for env g 0 (skipn 1 sheet).
Proof.
  intros Hload Hrun Hs.
  apply run_succeeded_inv in Hrun; auto.
  apply run_try_inv in Hrun
    as (sheet' & n & s1 & fs & _ & Hload' & Hloop & _ & Hclose & _).
  simpl in Hload'. rewrite Hload in Hload'. injection Hload' as <-.
  destruct (close_loop_counters _ _ _ _ _ _ _ Hclose) as (_ & Hsh & _).
  unfold sheet_rows at 1. rewrite Hsh.
  change (sheet_rows s1 g = rows_for env g 0 (skipn 1 sheet)).
  rewrite (row_loop_sheet_rows _ _ _ _ _ g
             (consistent_logged _ _ (consistent_init p h)) Hloop).
  reflexivity.
Qed.

End SheetRows.

(** ** The unmatched keys *)

Section Unmatched.

Variable Info : Type.
Variable env : Env Info.

Lemma cell_eqb_sym a b : cell_eqb a b = cell_eqb b a.
Proof.
  destruct a as [|x|n|s], b as [|y|m|t]; simpl; auto.
  - now destruct x, y.
  - apply Z.eqb_sym.
  - apply Z.eqb_sym.
  - apply Z.eqb_sym.
  - apply String.eqb_sym.
Qed.

Lemma cell_eqb_trans a b c :
  cell_eqb a b = true -> cell_eqb b c = true -> cell_eqb a c = true.
Proof.
  destruct a as [|x|n|s], b as [|y|m|t], c as [|z|k|u]; simpl;
    try discriminate; auto;
    rewrite ?Z.eqb_eq, ?String.eqb_eq, ?Bool.eqb_true_iff;
    try congruence;
    try (destruct x; destruct y; simpl; intros; congruence);
    try (destruct y; destruct z; simpl; intros; congruence);
    try (destruct x; destruct z; simpl; intros; subst; auto; lia).
Qed.

Lemma truthy_cell_eqb a b : cell_eqb a b = true -> truthy a = truthy b.
Proof.
  destruct a as [|x|n|s], b as [|y|m|t]; simpl; try discriminate; auto;
    rewrite ?Z.eqb_eq, ?String.eqb_eq, ?Bool.eqb_true_iff;
    try congruence.
  - intros <-. now destruct x.
  - intros ->. now destruct y.
Qed.

Lemma existsb_set_add k c l :
  existsb (cell_eqb k) (set_add c l) = cell_eqb k c || existsb (cell_eqb k) l.
Proof.
  unfold set_add. destruct (existsb (cell_eqb c) l) eqn:E.
  - destruct (cell_eqb k c) eqn:Ekc; auto. simpl.
    apply existsb_exists in E as (x & Hin & Hx).
    apply existsb_exists. exists x. split; auto.
    eapply cell_eqb_trans; eauto.
  - rewrite existsb_app. simpl. rewrite orb_false_r. apply orb_comm.
Qed.

Lemma distinct_cells_app l c :
  distinct_cells l = true -> existsb (cell_eqb c) l = false ->
  distinct_cells (l ++ [c]) = true.
Proof.
  induction l as [|x l IH]; simpl; auto.
  intros H Hc. apply andb_true_iff in H as [Hx Hl].
  apply orb_false_iff in Hc as [Hcx Hcl].
  rewrite existsb_app, IH by auto. simpl.
  rewrite cell_eqb_sym, Hcx.
  apply negb_true_iff in Hx. now rewrite Hx.
Qed.

Lemma distinct_set_add c l :
  distinct_cells l = true -> distinct_cells (set_add c l) = true.
Proof.
  intros H. unfold set_add.
  destruct (existsb (cell_eqb c) l) eqn:E; auto using distinct_cells_app.
Qed.

Lemma truthy_set_add c l :
  truthy c = true -> forallb truthy l = true ->
  forallb truthy (set_add c l) = true.
Proof.
  intros Hc Hl. unfold set_add. destruct (existsb (cell_eqb c) l); auto.
  rewrite forallb_app, Hl. simpl. now rewrite Hc.
Qed.

(** What one row does to [unmatched_cities]. *)
Lemma process_row_unmatched row s o s' :
  _process_row env row s = (o, s') ->
  unmatched_cities s'
  = match get_groups_for_city env (n_lookups s) (city_of row) with
    | Ok gs =>
        if is_empty gs && truthy (city_of row)
        then set_add (city_of row) (unmatched_cities s)
        else unmatched_cities s
    | Raise _ => unmatched_cities s
    end.
Proof.
  rewrite process_row_unfold.
  destruct (get_groups_for_city env (n_lookups s) (city_of row)) as [gs|e].
  - intros H. apply dispatch_all_unmatched in H. rewrite H.
    now destruct (is_empty gs && truthy (city_of row)).
  - intros [= _ <-]. reflexivity.
Qed.

Lemma process_row_answered row s s' :
  _process_row env row s = (Ok tt, s') ->
  exists gs, get_groups_for_city env (n_lookups s) (city_of row) = Ok gs.
Proof.
  rewrite process_row_unfold.
  destruct (get_groups_for_city env (n_lookups s) (city_of row)); eauto.
  discriminate.
Qed.

Lemma row_loop_unmatched rows n s m s' :
  row_loop env rows n s = (Ok m, s') ->
  unmatched_cities s'
  = unmatched_after env (n_lookups s) rows (unmatched_cities s) /\
  (forall i row, nth_error rows i = Some row ->
     exists gs,
       get_groups_for_city env (n_lookups s + i) (city_of row) = Ok gs).
Proof.
  revert n s. induction rows as [|row rows IH]; intros n s H.
  - injection H as _ <-. split; [reflexivity|]. intros [|i] row; discriminate.
  - simpl in H.
    apply bind_inv in H as [([] & s1 & H1 & H)|(e & H1 & He)]; [|discriminate].
    destruct (IH _ _ H) as [Hu Hall].
    rewrite (process_row_lookups _ env _ _ _ _ H1) in Hu, Hall.
    rewrite (process_row_unmatched _ _ _ _ H1) in Hu.
    destruct (process_row_answered _ _ _ H1) as [gs Hgs].
    split.
    + rewrite Hu. simpl. unfold resolved. now rewrite Hgs.
    + intros [|i] row0 Hnth.
      * injection Hnth as <-. rewrite Nat.add_0_r. eauto.
      * rewrite <- Nat.add_succ_comm. apply Hall. exact Hnth.
Qed.

(** Membership in the keys recorded by a list of rows. *)
Lemma unmatched_after_mem k rows n acc :
  existsb (cell_eqb k) (unmatched_after env n rows acc) = true <->
  existsb (cell_eqb k) acc = true \/
  exists i row,
    nth_error rows i = Some row /\
    truthy (city_of row) = true /\
    resolved env (n + i) row = [] /\
    cell_eqb k (city_of row) = true.
Proof.
  revert n acc. induction rows as [|row rows IH]; intros n acc; simpl.
  - split; auto. intros [H|(i & row & Hnth & _)]; auto.
    destruct i; discriminate.
  - rewrite IH. split.
    + intros [H|(i & row0 & Hnth & Ht & Hr & Hk)].
      * destruct (is_empty (resolved env n row) && truthy (city_of row)) eqn:E;
          auto.
        rewrite existsb_set_add in H. apply orb_true_iff in H as [H|H]; auto.
        apply andb_true_iff in E as [Hemp Ht].
        right. exists 0%nat, row. rewrite Nat.add_0_r.
        repeat split; auto. now destruct (resolved env n row).
      * right. exists (S i), row0. rewrite <- Nat.add_succ_comm. auto.
    + intros [H|(i & row0 & Hnth & Ht & Hr & Hk)].
      * left. destruct (is_empty (resolved env n row) && truthy (city_of row));
          auto.
        rewrite existsb_set_add, H. apply orb_true_r.
      * destruct i as [|i].
        -- injection Hnth as <-. rewrite Nat.add_0_r in Hr.
           left. rewrite Hr, Ht. simpl.
           rewrite existsb_set_add, Hk. reflexivity.
        -- right. exists i, row0. rewrite Nat.add_succ_comm. auto.
Qed.

(** X3. After a run that ends in success, a key is among the unmatched keys
    of the result exactly when some data row has that key (up to [==]), the
    key is not empty (truthy), and the lookup of that row answered with no
    group. *)
Theorem unmatched_keys_characterised p h sheet r s' :
  load_workbook env p = Ok sheet ->
  run env (init p h) = (r, s') ->
  succeeded r ->
  exists l,
    get "unmatched_cities" r = Some (VList l) /\
    forall k,
      existsb (cell_eqb k) l = true <->
      exists i row,
        nth_error (skipn 1 sheet) i = Some row /\
        truthy (city_of row) = true /\
        get_groups_for_city env i (city_of row) = Ok [] /\
        cell_eqb k (city_of row) = true.
Proof.
  intros Hload Hrun Hs.
  apply run_succeeded_inv in Hrun; auto.
  apply run_try_inv in Hrun
    as (sheet' & n & s1 & fs & _ & Hload' & Hloop & _ & _ & ->).
  simpl in Hload'. rewrite Hload in Hload'. injection Hload' as <-.
  destruct (row_loop_unmatched _ _ _ _ _ Hloop) as [Hu Hall].
  simpl in Hu, Hall.
  exists (unmatched_cities s1). split; [reflexivity|].
  intros k. rewrite Hu, unmatched_after_mem. simpl.
  split.
  - intros [H|(i & row & Hnth & Ht & Hr & Hk)]; [discriminate|].
    exists i, row. repeat split; auto.
    destruct (Hall _ _ Hnth) as [gs Hgs].
    unfold resolved in Hr. rewrite Hgs in Hr. now subst.
  - intros (i & row & Hnth & Ht & Hr & Hk). right.
    exists i, row. repeat split; auto.
    unfold resolved. now rewrite Hr.
Qed.

Lemma process_row_unmatched_distinct row s o s' :
  distinct_cells (unmatched_cities s) = true /\
  forallb truthy (unmatched_cities s) = true ->
  _process_row env row s = (o, s') ->
  distinct_cells (unmatched_cities s') = true /\
  forallb truthy (unmatched_cities s') = true.
Proof.
  intros [Hd Ht] H. rewrite (process_row_unmatched _ _ _ _ H).
  destruct (get_groups_for_city env (n_lookups s) (city_of row)) as [gs|e];
    auto.
  destruct (is_empty gs); simpl; auto.
  destruct (truthy (city_of row)) eqn:E2; auto.
  split; [now apply distinct_set_add|now apply truthy_set_add].
Qed.

(** X4. The list of unmatched keys of a result holds every key once (no two
    members are equal in the sense of [==]) and holds no empty key. *)
Theorem unmatched_keys_distinct_and_truthy p h l :
  get "unmatched_cities" (fst (run env (init p h))) = Some (VList l) ->
  distinct_cells l = true /\ forallb truthy l = true.
Proof.
  destruct (run env (init p h)) as [r s'] eqn:Hrun. simpl. intros Hl.
  assert (Hinv : distinct_cells (unmatched_cities s') = true /\
                 forallb truthy (unmatched_cities s') = true).
  { eapply (run_preserves _ env
              (fun s => distinct_cells (unmatched_cities s) = true /\
                        forallb truthy (unmatched_cities s) = true));
      [| | | |exact Hrun]; auto.
    intros row s o s1. apply process_row_unmatched_distinct. }
  apply run_cases in Hrun as [H|(e & _ & ->)]; [|discriminate].
  apply run_try_inv in H
    as (sheet & n & s1 & fs & _ & _ & _ & _ & Hcl & ->).
  destruct (close_loop_counters _ _ _ _ _ _ _ Hcl) as (_ & _ & _ & Hu & _).
  simpl in Hl. injection Hl as <-. simpl in Hu. now rewrite <- Hu.
Qed.

End Unmatched.

(** ** The counters *)

Section Counters.

Variable Info : Type.
Variable env : Env Info.

Lemma rows_written_assign g v (d : dict Z) :
  rows_written (assign g v d)
  = rows_written d + (v - 1)
    - match get g d with Some c => c - 1 | None => 0 end.
Proof.
  induction d as [|[k c] d IH]; simpl.
  - lia.
  - destruct (String.eqb g k); simpl; [lia|]. rewrite IH. lia.
Qed.

Lemma tally_logged evs s : tally s -> tally (logged evs s).
Proof. intros [H1 H2]. split; auto using consistent_logged. Qed.

Lemma tally_registered g p s :
  mem g (writers s) = false -> tally s -> tally (registered g p s).
Proof.
  intros Hm [Hc Ht]. split; [now apply consistent_registered|].
  unfold registered, with_row_counts. simpl.
  rewrite rows_written_assign.
  rewrite <- (cons_counts Hc) in Hm. apply mem_false_get in Hm.
  rewrite Hm, Ht. lia.
Qed.

Lemma tally_appended g ws c row s :
  get g (sheets s) = Some ws -> get g (row_counts s) = Some c ->
  tally s -> tally (appended g ws c row s).
Proof.
  intros Hws Hrc [Hc Ht]. split; [now apply consistent_appended|].
  unfold appended, with_matched_rows, with_row_counts. simpl.
  rewrite rows_written_assign, Hrc, Ht. lia.
Qed.

Lemma ensure_tally g s o s' :
  tally s -> _ensure_group_writer env g s = (o, s') -> tally s'.
Proof.
  intros Ht H.
  apply ensure_cases in H
    as [(_ & _ & ->)|[(Hm & p & evs & _ & ->)|(_ & e & evs & _ & ->)]];
    auto using tally_logged.
  apply tally_registered; auto using tally_logged.
Qed.

Lemma dispatch_tally row g s o s' :
  tally s -> dispatch env row g s = (o, s') -> tally s'.
Proof.
  intros Ht H.
  destruct (dispatch_cases _ _ _ _ _ _ _ (proj1 Ht) H)
    as [(e & s1 & _ & H1 & ->)
       |(s1 & ws & c & H1 & Hws & Hrc & [(e & _ & _ & ->)|(_ & _ & ->)])];
    assert (Ht1 : tally s1) by (eapply ensure_tally; eauto);
    auto using tally_logged, tally_appended.
Qed.

Lemma process_row_tally row s o s' :
  tally s -> _process_row env row s = (o, s') -> tally s'.
Proof.
  intros Ht. rewrite process_row_unfold.
  destruct (get_groups_for_city env (n_lookups s) (city_of row)) as [gs|e].
  - set (s0 := if is_empty gs && truthy (city_of row)
               then with_unmatched_cities (set_add (city_of row))
                      (logged [EvLookup (city_of row)] s)
               else logged [EvLookup (city_of row)] s).
    assert (Ht0 : tally s0).
    { subst s0. destruct (is_empty gs && truthy (city_of row));
        [|now apply tally_logged].
      destruct (tally_logged [EvLookup (city_of row)] s Ht) as [H1 H2].
      split; [now apply consistent_with_unmatched|exact H2]. }
    clearbody s0. revert s0 Ht0.
    induction gs as [|g gs IH]; simpl; intros s0 Ht0 H.
    + now injection H as _ <-.
    + apply bind_inv in H as [([] & s1 & H1 & H)|(e & H1 & _)].
      * eapply IH; [|exact H]. eapply dispatch_tally; eauto.
      * eapply dispatch_tally; eauto.
  - intros [= _ <-]. now apply tally_logged.
Qed.

(** X5. In a success result [matched_rows] is the sum over the groups of
    [stats] of the rows written to the group ([stats[g] - 1]). *)
Theorem matched_rows_is_sum_of_stats p h r s' m st :
  run env (init p h) = (r, s') ->
  get "matched_rows" r = Some (VInt m) ->
  get "stats" r = Some (VCounts st) ->
  m = rows_written st.
Proof.
  intros Hrun Hm Hst.
  apply run_cases in Hrun as [H|(e & _ & ->)]; [|discriminate].
  apply run_try_inv in H
    as (sheet & n & s1 & fs & _ & _ & Hloop & _ & _ & ->).
  simpl in Hm, Hst. injection Hm as <-. injection Hst as <-.
  eapply (row_loop_preserves _ env tally); [exact process_row_tally|
    |exact Hloop].
  apply tally_logged. split; [apply consistent_init|reflexivity].
Qed.

(** X6. In a success result [matched_rows] counts the destination writes:
    it is the sum over the data rows of the number of groups the resolver
    listed for the row. *)
Theorem matched_rows_counts_writes p h sheet r s' :
  load_workbook env p = Ok sheet ->
  run env (init p h) = (r, s') ->
  succeeded r ->
  get "matched_rows" r = Some (VInt (destinations env 0 (skipn 1 sheet))).
Proof.
  intros Hload Hrun Hs.
  apply run_succeeded_inv in Hrun; auto.
  apply run_try_inv in Hrun
    as (sheet' & n & s1 & fs & _ & Hload' & Hloop & _ & _ & ->).
  simpl in Hload'. rewrite Hload in Hload'. injection Hload' as <-.
  destruct (row_loop_done _ _ _ _ _ _ _
              (consistent_logged _ _ (consistent_init p h)) Hloop)
    as (_ & _ & _ & Hm).
  simpl in Hm. simpl. now rewrite Hm.
Qed.

Lemma dispatch_all_written_to row gs s s' :
  consistent s -> all_written s ->
  for_each gs (dispatch env row) s = (Ok tt, s') -> all_written s'.
Proof.
  revert s. induction gs as [|g gs IH]; simpl; intros s Hc Hw H.
  - now injection H as <-.
  - apply bind_inv in H as [([] & s1 & H1 & H)|(e & H1 & He)]; [|discriminate].
    eapply IH; [| |exact H]; [eapply dispatch_consistent; eauto|].
    destruct (dispatch_cases _ _ _ _ _ _ _ Hc H1)
      as [(e & s2 & He & _)
         |(s2 & ws & c & H2 & Hws & Hrc & [(e & _ & He & _)|(_ & _ & ->)])];
      try discriminate.
    assert (Hc2 : consistent s2) by (eapply ensure_consistent; eauto).
    intros g' c'. unfold appended, with_matched_rows, with_row_counts. simpl.
    rewrite get_assign. destruct (String.eqb g g') eqn:E.
    + intros [= <-]. destruct (cons_lines Hc2 _ Hws Hrc) as [-> _]. lia.
    + intros Hg'.
      apply ensure_cases in H2
        as [(_ & _ & ->)|[(_ & p & evs & _ & ->)|(_ & e & evs & He & _)]];
        try discriminate; [eapply Hw; eauto|].
      unfold registered, with_row_counts in Hg'. simpl in Hg'.
      rewrite get_assign, E in Hg'. eapply Hw; eauto.
Qed.

Lemma row_loop_all_written rows n s m s' :
  consistent s -> all_written s ->
  row_loop env rows n s = (Ok m, s') -> all_written s'.
Proof.
  revert n s. induction rows as [|row rows IH]; simpl; intros n s Hc Hw H.
  - now injection H as _ <-.
  - apply bind_inv in H as [([] & s1 & H1 & H)|(e & H1 & He)]; [|discriminate].
    eapply IH; [| |exact H]; [eapply process_row_consistent; eauto|].
    rewrite process_row_unfold in H1.
    destruct (get_groups_for_city env (n_lookups s) (city_of row)) as [gs|e];
      [|discriminate].
    eapply dispatch_all_written_to; [| |exact H1];
      destruct (is_empty gs && truthy (city_of row));
      auto using consistent_with_unmatched, consistent_logged.
Qed.

(** X7. Writers are created on demand.  After a run that ends in success a
    group has a writer exactly when the resolver listed it for some row,
    and no entry of [output_files] has a [row_count] below 1. *)
Theorem writers_only_for_listed_groups p h sheet r s' fs :
  load_workbook env p = Ok sheet ->
  run env (init p h) = (r, s') ->
  succeeded r ->
  get "output_files" r = Some (VFiles fs) ->
  (forall g, mem g (writers s') = true <-> 0 < listings env g 0 (skipn 1 sheet)) /\
  (forall g d, get g fs = Some d -> 1 <= row_count d).
Proof.
  intros Hload Hrun Hs Hfs.
  destruct (rows_done _ env _ _ _ _ _ Hload Hrun Hs)
    as (fs' & Hfs' & _ & Hc & Hw & Hd).
  rewrite Hfs in Hfs'. injection Hfs' as <-.
  assert (Hall : all_written s').
  { apply run_succeeded_inv in Hrun; auto.
    apply run_try_inv in Hrun
      as (sheet' & n & s1 & fs' & _ & _ & Hloop & _ & Hcl & _).
    destruct (close_loop_counters _ _ _ _ _ _ _ Hcl) as (Hrc & _).
    intros g c. rewrite Hrc. simpl.
    eapply row_loop_all_written; [| |exact Hloop].
    - apply consistent_logged, consistent_init.
    - intros g0 c0. discriminate. }
  split.
  - intros g. rewrite <- (cons_counts Hc), <- Hw. unfold written.
    split.
    + intros Hm. apply mem_true_get in Hm as [c Hg]. rewrite Hg.
      specialize (Hall _ _ Hg). lia.
    + destruct (get g (row_counts s')) eqn:Hg; [|lia].
      intros _. apply mem_true_get. eauto.
  - intros g d Hg. destruct (Hd _ _ Hg) as (c & Hc' & ->).
    specialize (Hall _ _ Hc'). lia.
Qed.

End Counters.

(** ** What a run asks of its collaborators *)

Section Collaborators.

Variable Info : Type.
Variable env : Env Info.

(** *** The writer pool, once more *)

Section PoolFrame.

Variable R : ExcelSplitter -> ExcelSplitter -> Prop.
Hypothesis R_refl : forall s, R s s.
Hypothesis R_trans : forall s1 s2 s3, R s1 s2 -> R s2 s3 -> R s1 s3.
Hypothesis R_call : forall ev s,
  pool_event ev = true -> R s (with_calls (fun l => (l ++ [ev])%list) s).
Hypothesis R_register : forall g p s,
  R s (with_writers (assign g (mkWorkbook p false)) s).
Hypothesis R_sheets : forall f s, R s (with_sheets f s).
Hypothesis R_row_counts : forall f s, R s (with_row_counts f s).
Hypothesis R_matched_rows : forall f s, R s (with_matched_rows f s).

Lemma pool_relates_ensure g : relates R (_ensure_group_writer env g).
Proof.
  intros s o s'. unfold _ensure_group_writer.
  destruct (mem g (writers s)).
  - intros [= <- <-]. apply R_refl.
  - revert s o s'.
    repeat (first [ apply relates_bind; auto; intros
                  | apply relates_call; auto
                  | apply relates_gets; auto
                  | apply relates_modify; auto ]).
Qed.

Lemma pool_relates_dispatch row g : relates R (dispatch env row g).
Proof.
  unfold dispatch, write_row.
  repeat (first [ apply relates_bind; auto; intros
                | apply pool_relates_ensure
                | apply relates_subscript; auto
                | apply relates_call; auto
                | apply relates_modify; auto ]).
Qed.

Lemma pool_relates_dispatch_all row gs :
  relates R (for_each gs (dispatch env row)).
Proof. apply relates_for_each; auto using pool_relates_dispatch. Qed.

End PoolFrame.

Lemma nothing_closed_logged ev s :
  is_close ev = false -> nothing_closed s -> nothing_closed (logged [ev] s).
Proof.
  intros Hev [H1 H2]. split; auto.
  intros ev'. simpl. rewrite in_app_iff. simpl.
  intros [H|[<-|[]]]; auto.
Qed.

Lemma process_row_nothing_closed row s o s' :
  nothing_closed s -> _process_row env row s = (o, s') -> nothing_closed s'.
Proof.
  intros Hn. rewrite process_row_unfold.
  assert (Hn0 : nothing_closed (logged [EvLookup (city_of row)] s))
    by now apply nothing_closed_logged.
  destruct (get_groups_for_city env (n_lookups s) (city_of row)) as [gs|e];
    [|now intros [= _ <-]].
  intros H.
  apply (pool_relates_dispatch_all
           (fun s s' => nothing_closed s -> nothing_closed s')) in H; auto.
  - apply H. now destruct (is_empty gs && truthy (city_of row)).
  - intros ev s0 Hev. apply nothing_closed_logged. now destruct ev.
  - intros g p s0 [H1 H2]. split; auto. simpl. intros g' wb.
    rewrite get_assign. destruct (String.eqb g g'); [|apply H1].
    now intros [= <-].
Qed.

(** X8. A run that does not end in success closes nothing: when [run]
    returns the failure dictionary no workbook has been asked to close and
    every writer created so far is still open. *)
Theorem failed_run_closes_nothing p h r s' :
  run env (init p h) = (r, s') ->
  ~ succeeded r ->
  (forall g wb, get g (writers s') = Some wb -> closed wb = false) /\
  (forall g, ~ In (EvClose g) (calls s')).
Proof.
  intros Hrun Hs.
  assert (Hn : nothing_closed s').
  { apply run_cases in Hrun as [H|(e & H & _)].
    - exfalso. apply Hs.
      apply run_try_inv in H as (_ & n & s1 & fs & _ & _ & _ & _ & _ & ->).
      reflexivity.
    - eapply (run_try_raises_preserves _ env nothing_closed); [| | |exact H].
      + intros ev s. apply nothing_closed_logged.
      + exact process_row_nothing_closed.
      + split; [discriminate|intros ev []]. }
  destruct Hn as [H1 H2]. split; [exact H1|].
  intros g Hin. apply H2 in Hin. discriminate.
Qed.

(** *** The lookups *)

Lemma lookups_logged ev s :
  lookups (logged [ev] s)
  = (lookups s ++ if is_lookup ev then [ev] else [])%list.
Proof.
  unfold lookups, logged, with_calls. simpl. rewrite filter_app. simpl.
  now destruct (is_lookup ev).
Qed.

Lemma process_row_lookup_list row s o s' :
  _process_row env row s = (o, s') ->
  lookups s' = (lookups s ++ [EvLookup (city_of row)])%list.
Proof.
  rewrite process_row_unfold.
  destruct (get_groups_for_city env (n_lookups s) (city_of row)) as [gs|e].
  - intros H.
    apply (relates_dispatch_all _ env (fun s s' => lookups s' = lookups s))
      in H; auto; try congruence.
    + rewrite H.
      destruct (is_empty gs && truthy (city_of row));
        exact (lookups_logged (EvLookup (city_of row)) s).
    + intros ev s0 Hev. change (with_calls _ s0) with (logged [ev] s0).
      rewrite lookups_logged, Hev. apply app_nil_r.
  - intros [= _ <-]. apply lookups_logged.
Qed.

Lemma row_loop_lookup_list rows n s o s' :
  row_loop env rows n s = (o, s') ->
  exists k,
    lookups s'
    = (lookups s ++ map (fun row => EvLookup (city_of row)) (firstn k rows))%list /\
    (forall m, o = Ok m -> firstn k rows = rows).
Proof.
  revert n s. induction rows as [|row rows IH]; intros n s H; simpl in H.
  - injection H as _ <-. exists 0%nat. simpl. now rewrite app_nil_r.
  - apply bind_inv in H as [([] & s1 & H1 & H)|(e & H1 & ->)].
    + destruct (IH _ _ H) as (k & Hk & Hall).
      exists (S k). rewrite Hk, (process_row_lookup_list _ _ _ _ H1).
      simpl. rewrite <- app_assoc. split; [reflexivity|].
      intros m Hm. now rewrite (Hall m Hm).
    + exists 1%nat. rewrite (process_row_lookup_list _ _ _ _ H1).
      simpl. split; [reflexivity|discriminate].
Qed.

Lemma close_loop_lookup_list its out s o s' :
  close_loop env its out s = (o, s') -> lookups s' = lookups s.
Proof.
  intros H.
  eapply (close_loop_preserves _ env (fun s0 => lookups s0 = lookups s));
    [| | |exact H]; auto.
  - intros g s0 Hs0. now rewrite lookups_logged, app_nil_r.
  - intros g wb s0 Hs0.
    change (lookups (logged [EvClose g] s0) = lookups s).
    now rewrite lookups_logged, app_nil_r.
Qed.

(** X9. The resolver is asked once for every data row, in the order of the
    input, with the cell at position 1 of the row ([None] for a shorter
    row): after a success the lookups are those of all the rows, after a
    failure those of the rows up to the one the run stopped at. *)
Theorem one_lookup_per_row p h sheet r s' :
  load_workbook env p = Ok sheet ->
  run env (init p h) = (r, s') ->
  exists k,
    filter is_lookup (calls s')
    = map (fun row => EvLookup (city_of row)) (firstn k (skipn 1 sheet)) /\
    (succeeded r -> firstn k (skipn 1 sheet) = skipn 1 sheet).
Proof.
  intros Hload Hrun.
  apply run_cases in Hrun as [H|(e & H & ->)].
  - apply run_try_inv in H
      as (sheet' & n & s1 & fs & _ & Hload' & Hloop & _ & Hcl & _).
    simpl in Hload'. rewrite Hload in Hload'. injection Hload' as <-.
    apply close_loop_lookup_list in Hcl.
    destruct (row_loop_lookup_list _ _ _ _ _ Hloop) as (k & Hk & Hall).
    exists k. fold (lookups s'). rewrite Hcl, lookups_logged, app_nil_r, Hk.
    split; [reflexivity|]. intros _. eapply Hall; eauto.
  - assert (Hno : ~ succeeded (failure e)) by apply failure_not_succeeded.
    unfold run_try in H.
    apply bind_inv in H as [([] & s1 & H1 & H)|(e1 & H1 & _)];
      apply call_inv in H1 as [_ ->];
      [|exists 0%nat; split; [reflexivity|tauto]].
    apply bind_inv in H as [(path & s2 & H2 & H)|(e2 & H2 & _)];
      [|discriminate].
    injection H2 as <- <-.
    apply bind_inv in H as [(sheet' & s3 & H3 & H)|(e3 & H3 & _)];
      apply call_inv in H3 as [H3 ->];
      [|exists 0%nat; split; [reflexivity|tauto]].
    simpl in H3. rewrite Hload in H3. injection H3 as <-.
    apply bind_inv in H as [(n & s4 & H4 & H)|(e4 & H4 & _)].
    + destruct (row_loop_lookup_list _ _ _ _ _ H4) as (k & Hk & _).
      exists k. split; [|tauto].
      apply bind_inv in H as [([] & s5 & H5 & H)|(e5 & H5 & _)];
        apply call_inv in H5 as [_ ->].
      * now apply finalize_never_raises in H.
      * fold (lookups (logged [EvCloseInput] s4)).
        now rewrite lookups_logged, app_nil_r, Hk.
    + destruct (row_loop_lookup_list _ _ _ _ _ H4) as (k & Hk & _).
      exists k. split; [exact Hk|tauto].
Qed.

(** *** The entries of [output_files] *)

(** X10. After a run that ends in success a group has an entry in
    [output_files] exactly when it has a writer and its workbook closed
    without raising; the workbook behind an entry is marked closed. *)
Theorem output_files_are_closed_writers p h r s' fs g :
  run env (init p h) = (r, s') ->
  succeeded r ->
  get "output_files" r = Some (VFiles fs) ->
  (mem g fs = true <-> mem g (writers s') = true /\ wb_close env g = Ok tt) /\
  (forall d, get g fs = Some d ->
     exists wb, get g (writers s') = Some wb /\ closed wb = true).
Proof.
  intros Hrun Hs Hfs.
  apply run_succeeded_inv in Hrun; auto.
  apply run_try_inv in Hrun
    as (sheet & n & s1 & fs' & _ & _ & Hloop & _ & Hcl & ->).
  simpl in Hfs. injection Hfs as ->.
  assert (Hc1 : consistent s1).
  { eapply row_loop_consistent; [|exact Hloop].
    apply consistent_logged, consistent_init. }
  assert (Hw : forall g0, mem g0 (writers s') = mem g0 (writers s1)).
  { intros g0.
    change (mem g0 (writers s') = mem g0 (writers (logged [EvCloseInput] s1))).
    eapply close_loop_writers; [exact Hcl|].
    intros g1 wb Hin. eapply In_mem; eauto. }
  assert (Hentry : forall d, get g fs = Some d ->
            exists wb c, In (g, wb) (writers s1) /\ wb_close env g = Ok tt /\
                         d = descriptor wb c).
  { intros d Hd.
    destruct (close_loop_entries _ _ _ _ _ _ _ _ _ Hcl Hd)
      as [Hout|(wb & c & Hin & Hok & _ & ->)]; [discriminate|eauto]. }
  split; [split|].
  - intros Hm. apply mem_true_get in Hm as [d Hd].
    destruct (Hentry d Hd) as (wb & c & Hin & Hok & _).
    split; [|exact Hok]. rewrite Hw. eapply In_mem; eauto.
  - intros [Hm Hok]. rewrite Hw in Hm.
    apply mem_true_get in Hm as [wb Hwb]. apply get_In in Hwb.
    destruct (close_loop_closes _ _ _ _ _ _ _ _ _ Hcl Hwb) as [_ Hclosed].
    apply (Hclosed Hok). simpl.
    rewrite (cons_counts Hc1). eapply In_mem; eauto.
  - intros d Hd.
    destruct (Hentry d Hd) as (wb & c & Hin & Hok & ->).
    destruct (close_loop_closes _ _ _ _ _ _ _ _ _ Hcl Hin) as [_ Hclosed].
    destruct (proj1 (Hclosed Hok)) as (wb' & Hwb' & Hcl').
    exists wb'. split; auto.
Qed.

End Collaborators.

(** ** Closing, in order *)

Section Closing.

Variable Info : Type.
Variable env : Env Info.

Lemma keys_assign_present {V : Type} g (v : V) (d : dict V) :
  mem g d = true -> keys (assign g v d) = keys d.
Proof.
  unfold mem, keys. induction d as [|[k v'] d IH]; simpl; [discriminate|].
  destruct (String.eqb g k); simpl; auto.
  intros H. now rewrite IH.
Qed.

Lemma keys_assign_absent {V : Type} g (v : V) (d : dict V) :
  mem g d = false -> keys (assign g v d) = (keys d ++ [g])%list.
Proof.
  unfold mem, keys. induction d as [|[k v'] d IH]; simpl; auto.
  destruct (String.eqb g k); [discriminate|]. simpl.
  intros H. now rewrite IH.
Qed.

Lemma mem_keys {V : Type} g (d : dict V) : mem g d = true <-> In g (keys d).
Proof.
  unfold mem, keys. induction d as [|[k v] d IH]; simpl.
  - split; [discriminate|tauto].
  - destruct (String.eqb g k) eqn:E.
    + apply String.eqb_eq in E. subst. tauto.
    + apply String.eqb_neq in E. rewrite IH. split; auto.
      intros [H|H]; auto. congruence.
Qed.

Lemma process_row_unique_writers row s o s' :
  unique_writers s -> _process_row env row s = (o, s') -> unique_writers s'.
Proof.
  intros Hu. rewrite process_row_unfold.
  destruct (get_groups_for_city env (n_lookups s) (city_of row)) as [gs|e];
    [|now intros [= _ <-]].
  intros H.
  apply (pool_relates_dispatch_all _ env
           (fun s s' => unique_writers s -> unique_writers s')) in H; auto.
  - apply H. now destruct (is_empty gs && truthy (city_of row)).
  - intros g p s0 Hu0. unfold unique_writers. simpl.
    destruct (mem g (writers s0)) eqn:Hm.
    + now rewrite keys_assign_present.
    + rewrite keys_assign_absent by exact Hm.
      apply NoDup_app; auto.
      * constructor; [tauto|constructor].
      * intros x Hx [<-|[]]. apply mem_keys in Hx. congruence.
Qed.

(** The loop of [_finalize] asks the workbooks to close one after the other,
    in the order of the items. *)
Lemma close_loop_calls its out s fs s' :
  close_loop env its out s = (Ok fs, s') ->
  calls s' = (calls s ++ map (fun it => EvClose (fst it)) its)%list.
Proof.
  revert out s. induction its as [|[g wb] its IH]; intros out s.
  - simpl. intros [= _ <-]. now rewrite app_nil_r.
  - rewrite close_loop_step. intros H.
    destruct (wb_close env g); [destruct (get g (row_counts s))|];
      apply IH in H; rewrite H; simpl; now rewrite <- app_assoc.
Qed.

Lemma close_loop_keys its out s fs s' :
  close_loop env its out s = (Ok fs, s') ->
  (forall g wb, In (g, wb) its -> mem g (writers s) = true) ->
  keys (writers s') = keys (writers s).
Proof.
  revert out s. induction its as [|[g wb] its IH]; intros out s H Hin.
  - now injection H as _ <-.
  - rewrite close_loop_step in H.
    assert (Hg : mem g (writers s) = true) by (eapply Hin; left; eauto).
    assert (Hk : keys (writers (closed_at g wb s)) = keys (writers s))
      by (simpl; now apply keys_assign_present).
    assert (Hin' : forall g0 wb0, In (g0, wb0) its ->
                     mem g0 (writers (closed_at g wb s)) = true).
    { intros g0 wb0 H0. simpl. rewrite mem_assign.
      erewrite Hin by (right; eauto). apply orb_true_r. }
    destruct (wb_close env g); [destruct (get g (row_counts s))|];
      apply IH in H; auto; try (now rewrite H).
    intros g0 wb0 H0. apply (Hin g0 wb0). now right.
Qed.

Lemma filter_close_events {V : Type} (d : dict V) :
  filter is_close (map (fun it => EvClose (fst it)) d) = map EvClose (keys d).
Proof.
  unfold keys. induction d as [|[g v] d IH]; simpl; auto. now rewrite IH.
Qed.

(** X11. A run that ends in success asks every workbook it created to close
    exactly once, after the last row, in the order in which the groups got
    their writers. *)
Theorem workbooks_closed_once_in_order p h r s' :
  run env (init p h) = (r, s') ->
  succeeded r ->
  filter is_close (calls s') = map EvClose (keys (writers s')) /\
  NoDup (keys (writers s')).
Proof.
  intros Hrun Hs.
  apply run_succeeded_inv in Hrun; auto.
  apply run_try_inv in Hrun
    as (sheet & n & s1 & fs & _ & _ & Hloop & _ & Hcl & _).
  assert (Hn1 : nothing_closed s1).
  { eapply (row_loop_preserves _ env nothing_closed);
      [exact (process_row_nothing_closed _ env)| |exact Hloop].
    split; [discriminate|]. simpl. intros ev [<-|[<-|[]]]; reflexivity. }
  assert (Hu1 : unique_writers s1).
  { eapply (row_loop_preserves _ env unique_writers);
      [exact process_row_unique_writers| |exact Hloop]. constructor. }
  assert (Hkeys : keys (writers s') = keys (writers s1)).
  { change (keys (writers s') = keys (writers (logged [EvCloseInput] s1))).
    eapply close_loop_keys; [exact Hcl|].
    intros g wb Hin. eapply In_mem; eauto. }
  rewrite (close_loop_calls _ _ _ _ _ Hcl), Hkeys. simpl.
  rewrite !filter_app. simpl.
  replace (filter is_close (calls s1)) with (@nil Event).
  - split; [|exact Hu1]. simpl. apply filter_close_events.
  - symmetry. destruct Hn1 as [_ Hn1].
    induction (calls s1) as [|ev l IH]; simpl; auto.
    rewrite (Hn1 ev) by now left. apply IH. intros ev' Hin. apply Hn1. now right.
Qed.

End Closing.

(** ** Success and failure of single steps *)

Section Steps.

Variable Info : Type.
Variable env : Env Info.

(** X12. Only a collaborator can make a run fail: when none of them raises
    (initialisation, loading and closing the input, every lookup, the
    writer pool), the run ends in success. *)
Theorem reliable_run_succeeds p h sheet :
  writers_reliable env ->
  (forall n c, exists gs, get_groups_for_city env n c = Ok gs) ->
  ensure_initialized env = Ok tt ->
  load_workbook env p = Ok sheet ->
  input_close env = Ok tt ->
  succeeded (split_excel_by_groups env p h).
Proof.
  intros Hpool Hres Hinit Hload Hin.
  apply (run_succeeds _ env Hpool Hres (init p h) sheet); auto.
  apply consistent_init.
Qed.

(** X13. A dispatch that raises counts nothing: whether the writer could
    not be created or the row could not be written, [matched_rows], every
    cursor and the rows of every sheet are as they were before. *)
Theorem failed_dispatch_counts_nothing row g s e s' :
  consistent s ->
  dispatch env row g s = (Raise e, s') ->
  matched_rows s' = matched_rows s /\
  (forall g', written s' g' = written s g') /\
  (forall g', sheet_rows s' g' = sheet_rows s g').
Proof.
  intros Hc H.
  destruct (dispatch_cases _ _ _ _ _ _ _ Hc H)
    as [(e1 & s1 & _ & H1 & ->)
       |(s1 & ws & c & H1 & Hws & Hrc & [(e1 & _ & _ & ->)|(_ & He & _)])];
    try discriminate.
  - apply ensure_cases in H1
      as [(_ & He & _)|[(_ & p & evs & He & _)|(_ & e2 & evs & _ & ->)]];
      try discriminate.
    repeat split.
  - assert (Hm : matched_rows s1 = matched_rows s).
    { apply ensure_cases in H1
        as [(_ & _ & ->)|[(_ & p & evs & _ & ->)|(_ & e2 & evs & He & _)]];
        try discriminate; reflexivity. }
    split; [exact Hm|]. split; intros g'.
    + exact (ensure_written _ env g s s1 g' Hc H1).
    + exact (ensure_sheet_rows _ env g s s1 g' Hc H1).
Qed.

End Steps.

(** ** Rows per group, and rows without a key *)

Section RowsPerGroup.

Variable Info : Type.
Variable env : Env Info.

(** After a success a group has a writer exactly when some row listed it. *)
Lemma writer_iff_listed p h sheet r s' g :
  load_workbook env p = Ok sheet ->
  run env (init p h) = (r, s') ->
  succeeded r ->
  (mem g (writers s') = true <-> 0 < listings env g 0 (skipn 1 sheet)) /\
  written s' g = listings env g 0 (skipn 1 sheet) /\
  consistent s'.
Proof.
  intros Hload Hrun Hs.
  destruct (rows_done _ env _ _ _ _ _ Hload Hrun Hs)
    as (fs & _ & _ & Hc & Hw & _).
  assert (Hall : all_written s').
  { apply run_succeeded_inv in Hrun; auto.
    apply run_try_inv in Hrun
      as (sheet' & n & s1 & fs' & _ & _ & Hloop & _ & Hcl & _).
    destruct (close_loop_counters _ _ _ _ _ _ _ Hcl) as (Hrc & _).
    intros g0 c. rewrite Hrc. simpl.
    eapply row_loop_all_written; [| |exact Hloop].
    - apply consistent_logged, consistent_init.
    - intros g1 c1. discriminate. }
  split; [|split; auto].
  rewrite <- (cons_counts Hc), <- Hw. unfold written. split.
  - intros Hm. apply mem_true_get in Hm as [c Hg]. rewrite Hg.
    specialize (Hall _ _ Hg). lia.
  - destruct (get g (row_counts s')) eqn:Hg; [|lia].
    intros _. apply mem_true_get. eauto.
Qed.

(** After a success a group has an entry exactly when it has a writer and
    its workbook closed. *)
Lemma entry_iff_closed p h r s' fs g :
  run env (init p h) = (r, s') ->
  succeeded r ->
  get "output_files" r = Some (VFiles fs) ->
  (mem g fs = true <-> mem g (writers s') = true /\ wb_close env g = Ok tt).
Proof.
  intros Hrun Hs Hfs.
  apply run_succeeded_inv in Hrun; auto.
  apply run_try_inv in Hrun
    as (sheet & n & s1 & fs' & _ & _ & Hloop & _ & Hcl & ->).
  simpl in Hfs. injection Hfs as ->.
  assert (Hc1 : consistent s1).
  { eapply row_loop_consistent; [|exact Hloop].
    apply consistent_logged, consistent_init. }
  assert (Hw : forall g0, mem g0 (writers s') = mem g0 (writers s1)).
  { intros g0.
    change (mem g0 (writers s') = mem g0 (writers (logged [EvCloseInput] s1))).
    eapply close_loop_writers; [exact Hcl|].
    intros g1 wb Hin. eapply In_mem; eauto. }
  split.
  - intros Hm. apply mem_true_get in Hm as [d Hd].
    destruct (close_loop_entries _ _ _ _ _ _ _ _ _ Hcl Hd)
      as [Hout|(wb & c & Hin & Hok & _)]; [discriminate|].
    split; [|exact Hok]. rewrite Hw. eapply In_mem; eauto.
  - intros [Hm Hok]. rewrite Hw in Hm.
    apply mem_true_get in Hm as [wb Hwb]. apply get_In in Hwb.
    destruct (close_loop_closes _ _ _ _ _ _ _ _ _ Hcl Hwb) as [_ Hclosed].
    apply (Hclosed Hok). simpl.
    rewrite (cons_counts Hc1). eapply In_mem; eauto.
Qed.

Lemma sheet_rows_length s g c :
  consistent s -> get g (row_counts s) = Some c ->
  Z.of_nat (length (sheet_rows s g)) = c - 1.
Proof.
  intros Hc Hg.
  assert (Hm : mem g (sheets s) = true).
  { rewrite (cons_sheets Hc), <- (cons_counts Hc). apply mem_true_get. eauto. }
  apply mem_true_get in Hm as [ws Hws].
  unfold sheet_rows. rewrite Hws, length_map.
  destruct (cons_lines Hc _ Hws Hg) as [-> _]. lia.
Qed.

(** C4, as the code has it.  With a resolver that answers with sets (no
    group listed twice), after a run that ends in success: a group has an
    entry in [output_files] exactly when at least one row resolved to it
    and its workbook closed without raising, so a group that received rows
    and whose workbook did not close has none; an entry has for [row_count]
    the number of rows whose resolved groups contain its group, which is
    also the number of rows its sheet holds below the header; and the
    cursor of every group that received a row, entry or not, ends one above
    that number: it was set to 1 when the writer was created, moved by one
    with every written row, and [row_count] is the cursor less one. *)
Theorem row_count_counts_resolved_rows p h sheet r s' fs g :
  (forall n c gs, get_groups_for_city env n c = Ok gs -> NoDup gs) ->
  load_workbook env p = Ok sheet ->
  run env (init p h) = (r, s') ->
  succeeded r ->
  get "output_files" r = Some (VFiles fs) ->
  (mem g fs = true <->
   0 < rows_resolving_to env g 0 (skipn 1 sheet) /\ wb_close env g = Ok tt) /\
  (forall d, get g fs = Some d ->
     row_count d = rows_resolving_to env g 0 (skipn 1 sheet) /\
     Z.of_nat (length (sheet_rows s' g)) = row_count d) /\
  (0 < rows_resolving_to env g 0 (skipn 1 sheet) ->
   get g (row_counts s') = Some (1 + rows_resolving_to env g 0 (skipn 1 sheet)) /\
   Z.of_nat (length (sheet_rows s' g))
   = rows_resolving_to env g 0 (skipn 1 sheet)).
Proof.
  intros Hset Hload Hrun Hs Hfs.
  destruct (writer_iff_listed _ _ _ _ _ g Hload Hrun Hs) as (Hwl & Hw & Hc).
  rewrite listings_rows_resolving_to in Hwl, Hw by exact Hset.
  pose proof (entry_iff_closed _ _ _ _ _ g Hrun Hs Hfs) as Hentry.
  assert (Hcursor : 0 < rows_resolving_to env g 0 (skipn 1 sheet) ->
            get g (row_counts s')
            = Some (1 + rows_resolving_to env g 0 (skipn 1 sheet))).
  { intros Hpos. apply Hwl in Hpos. rewrite <- (cons_counts Hc) in Hpos.
    apply mem_true_get in Hpos as [c Hg].
    unfold written in Hw. rewrite Hg in Hw. rewrite Hg. f_equal. lia. }
  split; [|split].
  - rewrite Hentry, Hwl. tauto.
  - intros d Hd.
    destruct (rows_done _ env _ _ _ _ _ Hload Hrun Hs)
      as (fs' & Hfs' & _ & _ & _ & Hd').
    rewrite Hfs in Hfs'. injection Hfs' as <-.
    destruct (Hd' _ _ Hd) as (c & Hg & ->).
    unfold written in Hw. rewrite Hg in Hw.
    split; [exact Hw|]. now apply sheet_rows_length.
  - intros Hpos. split; [now apply Hcursor|].
    rewrite (sheet_rows_length _ _ _ Hc (Hcursor Hpos)). lia.
Qed.

(** C2, as the code has it.  A row whose key is missing or empty (or falsy
    in any other way) is looked up like any other row, with that key.  The
    row never adds to [unmatched_cities].  It is dispatched to the groups
    the lookup answers with, all of them and in their order: when the row
    has been processed every sheet has gained the row once for every time
    its group was listed, and every cursor has moved by as much.  When the
    lookup answers with no group, the one lookup is all that happens.  And
    the loop of [run] counts the row once. *)
Theorem missing_key_row row s :
  truthy (city_of row) = false ->
  (forall o s', _process_row env row s = (o, s') ->
     n_lookups s' = S (n_lookups s) /\
     (exists evs, calls s' = (calls s ++ EvLookup (city_of row) :: evs)%list) /\
     unmatched_cities s' = unmatched_cities s) /\
  (forall gs, get_groups_for_city env (n_lookups s) (city_of row) = Ok gs ->
     _process_row env row s
     = for_each gs (dispatch env row) (logged [EvLookup (city_of row)] s)) /\
  (forall gs s',
     consistent s ->
     get_groups_for_city env (n_lookups s) (city_of row) = Ok gs ->
     _process_row env row s = (Ok tt, s') ->
     forall g,
       sheet_rows s' g
       = (sheet_rows s g ++ repeat row (count_occ string_dec gs g))%list /\
       written s' g = written s g + Z.of_nat (count_occ string_dec gs g)) /\
  (get_groups_for_city env (n_lookups s) (city_of row) = Ok [] ->
     _process_row env row s = (Ok tt, logged [EvLookup (city_of row)] s)) /\
  (forall s1 rows n, _process_row env row s = (Ok tt, s1) ->
     row_loop env (row :: rows) n s = row_loop env rows (n + 1) s1).
Proof.
  intros Hkey. split; [|split; [|split; [|split]]].
  - intros o s' H. split; [eapply process_row_lookups; eauto|].
    rewrite process_row_unfold in H.
    destruct (get_groups_for_city env (n_lookups s) (city_of row)) as [gs|e].
    + rewrite Hkey, andb_false_r in H. split.
      * apply dispatch_all_calls in H as [evs H]. exists evs.
        rewrite H. simpl. now rewrite <- app_assoc.
      * apply dispatch_all_unmatched in H. exact H.
    + injection H as _ <-. split; [exists []|]; reflexivity.
  - intros gs Hgs. rewrite process_row_unfold, Hgs, Hkey, andb_false_r.
    reflexivity.
  - intros gs s' Hc Hgs H g. split.
    + rewrite (process_row_sheet_rows _ env _ _ _ g Hc H).
      unfold resolved. now rewrite Hgs.
    + destruct (process_row_written _ env _ _ _ Hc H) as (gs' & Hgs' & Hw & _).
      rewrite Hgs in Hgs'. injection Hgs' as <-. apply Hw.
  - intros Hgs. rewrite process_row_unfold, Hgs, Hkey. reflexivity.
  - intros s1 rows n H. simpl. unfold bind. now rewrite H.
Qed.

End RowsPerGroup.

(** ** The handler loader *)

Section Loader.

Variable env : LoaderEnv.

(** What loading one file does to the counters and to the outside. *)
Lemma single_handler_effect file target st :
  let st' := _load_single_handler env file target st in
  scanned (result st') = scanned (result st) /\
  surplus (result st') = surplus (result st) + 1 /\
  imported st' = (imported st ++ [file])%list /\
  Z.of_nat (length (included st')) - loaded (result st')
  = Z.of_nat (length (included st)) - loaded (result st) /\
  Z.of_nat (length (errors (result st'))) - failed (result st')
  <= Z.of_nat (length (errors (result st))) - failed (result st) /\
  (exists rs, included st' = (included st ++ map (pair target) rs)%list) /\
  0 <= loaded (result st') - loaded (result st) /\
  0 <= failed (result st') - failed (result st) /\
  0 <= skipped (result st') - skipped (result st).
Proof.
  unfold _load_single_handler, surplus.
  destruct (_import_module_safely env file) as [[[[r|]|]]|]; simpl.
  - destruct (include_router env target r); simpl;
      rewrite ?length_app; simpl; repeat split; try lia;
      try (exists [r]; reflexivity);
      try (exists []; now rewrite app_nil_r).
  - rewrite length_app. simpl. repeat split; try lia.
    exists []. now rewrite app_nil_r.
  - repeat split; try lia. exists []. now rewrite app_nil_r.
  - repeat split; try lia. exists []. now rewrite app_nil_r.
Qed.

(** The same for the files of a directory. *)
Lemma dir_files_effect dir target names st :
  let st' :=
    fold_left
      (fun st name =>
         _load_single_handler env (mkHandlerFile dir name) target
           (with_result add_scanned st)) names st in
  scanned (result st') = scanned (result st) + Z.of_nat (length names) /\
  surplus (result st') = surplus (result st) /\
  imported st' = (imported st ++ map (mkHandlerFile dir) names)%list /\
  Z.of_nat (length (included st')) - loaded (result st')
  = Z.of_nat (length (included st)) - loaded (result st) /\
  Z.of_nat (length (errors (result st'))) - failed (result st')
  <= Z.of_nat (length (errors (result st))) - failed (result st) /\
  (exists rs, included st' = (included st ++ map (pair target) rs)%list) /\
  0 <= loaded (result st') - loaded (result st) /\
  0 <= failed (result st') - failed (result st) /\
  0 <= skipped (result st') - skipped (result st).
Proof.
  revert st. induction names as [|name names IH]; intros st; cbn [fold_left].
  - simpl. rewrite app_nil_r. repeat split; try lia.
    exists []. now rewrite app_nil_r.
  - destruct (single_handler_effect (mkHandlerFile dir name) target
                (with_result add_scanned st))
      as (H1 & H2 & H3 & H4 & H5 & (rs1 & H6) & H7 & H8 & H9).
    destruct (IH (_load_single_handler env (mkHandlerFile dir name) target
                    (with_result add_scanned st)))
      as (I1 & I2 & I3 & I4 & I5 & (rs2 & I6) & I7 & I8 & I9).
    unfold surplus in *. simpl in H1, H2, H3, H4, H5, H6, H7, H8, H9.
    rewrite I1, I3, H1, H3. cbn [length map].
    repeat split; try lia.
    + now rewrite <- app_assoc.
    + exists (rs1 ++ rs2)%list. rewrite I6, H6, map_app. now rewrite app_assoc.
Qed.

Lemma dir_effect self dir target st :
  let st' := _load_handlers_from_dir env self dir target st in
  scanned (result st')
  = scanned (result st) + Z.of_nat (length (files_of env self dir)) /\
  surplus (result st') = surplus (result st) /\
  imported st' = (imported st ++ files_of env self dir)%list /\
  Z.of_nat (length (included st')) - loaded (result st')
  = Z.of_nat (length (included st)) - loaded (result st) /\
  Z.of_nat (length (errors (result st'))) - failed (result st')
  <= Z.of_nat (length (errors (result st))) - failed (result st) /\
  (exists rs, included st' = (included st ++ map (pair target) rs)%list) /\
  0 <= loaded (result st') - loaded (result st) /\
  0 <= failed (result st') - failed (result st) /\
  0 <= skipped (result st') - skipped (result st).
Proof.
  assert (Hnone : forall st0 : Loading,
            scanned (result st0) = scanned (result st0) + Z.of_nat 0 /\
            surplus (result st0) = surplus (result st0) /\
            imported st0 = (imported st0 ++ [])%list /\
            Z.of_nat (length (included st0)) - loaded (result st0)
            = Z.of_nat (length (included st0)) - loaded (result st0) /\
            Z.of_nat (length (errors (result st0))) - failed (result st0)
            <= Z.of_nat (length (errors (result st0))) - failed (result st0) /\
            (exists rs, included st0 = (included st0 ++ map (pair target) rs)%list) /\
            0 <= loaded (result st0) - loaded (result st0) /\
            0 <= failed (result st0) - failed (result st0) /\
            0 <= skipped (result st0) - skipped (result st0)).
  { intros st0. rewrite app_nil_r. repeat split; try lia.
    exists []. now rewrite app_nil_r. }
  unfold _load_handlers_from_dir, files_of.
  destruct (glob_py env dir) as [names|e]; [|apply Hnone].
  destruct (py_files names) as [|name names'] eqn:Hpy.
  - destruct (relative_to env dir (base_dir self)); apply Hnone.
  - destruct (relative_to env dir (base_dir self)); [|apply Hnone].
    rewrite length_map. apply dir_files_effect.
Qed.

Lemma all_dirs_effect self dirs target st :
  let st' :=
    fold_left (fun st dir => _load_handlers_from_dir env self dir target st) dirs st in
  scanned (result st')
  = scanned (result st) + Z.of_nat (length (flat_map (files_of env self) dirs)) /\
  surplus (result st') = surplus (result st) /\
  imported st' = (imported st ++ flat_map (files_of env self) dirs)%list /\
  Z.of_nat (length (included st')) - loaded (result st')
  = Z.of_nat (length (included st)) - loaded (result st) /\
  Z.of_nat (length (errors (result st'))) - failed (result st')
  <= Z.of_nat (length (errors (result st))) - failed (result st) /\
  (exists rs, included st' = (included st ++ map (pair target) rs)%list) /\
  0 <= loaded (result st') - loaded (result st) /\
  0 <= failed (result st') - failed (result st) /\
  0 <= skipped (result st') - skipped (result st).
Proof.
  revert st. induction dirs as [|dir dirs IH]; intros st; cbn [fold_left flat_map].
  - simpl. rewrite app_nil_r. repeat split; try lia.
    exists []. now rewrite app_nil_r.
  - destruct (dir_effect self dir target st)
      as (H1 & H2 & H3 & H4 & H5 & (rs1 & H6) & H7 & H8 & H9).
    destruct (IH (_load_handlers_from_dir env self dir target st))
      as (I1 & I2 & I3 & I4 & I5 & (rs2 & I6) & I7 & I8 & I9).
    cbv zeta in *.
    rewrite I1, I3, H1, H3, length_app, Nat2Z.inj_add.
    repeat split; try lia.
    + now rewrite <- app_assoc.
    + exists (rs1 ++ rs2)%list. rewrite I6, H6, map_app. now rewrite app_assoc.
Qed.

(** The loop of [_get_scan_directories], when no test raises. *)
Lemma scan_loop_Ok base subdirs acc dirs :
  scan_loop env base subdirs acc = Ok dirs ->
  dirs = (acc ++ map (join_path env base)
                   (filter (fun d => exists_true env (join_path env base d))
                      subdirs))%list.
Proof.
  revert acc. induction subdirs as [|d ds IH]; intros acc; simpl.
  - intros [= <-]. now rewrite app_nil_r.
  - unfold exists_true at 1.
    destruct (path_exists env (join_path env base d)) as [[|]|e]; try discriminate.
    + intros H. apply IH in H. rewrite H. simpl. now rewrite <- app_assoc.
    + apply IH.
Qed.

(** The target of the routers. *)
Lemma loading_cases self arg :
  let target := match arg with Some d => d | None => dispatcher self end in
  snd (load_handlers_of env self arg)
  = match path_exists env (base_dir self) with
    | Raise e => critical e new_Loading
    | Ok false =>
        with_result
          (add_error ("Handler dizini bulunamadı: " ++ base_dir self)) new_Loading
    | Ok true =>
        match _get_scan_directories env self with
        | Raise e => critical e new_Loading
        | Ok dirs =>
            fold_left
              (fun st dir => _load_handlers_from_dir env self dir target st)
              dirs new_Loading
        end
    end.
Proof.
  unfold load_handlers_of, _load_all_handlers. simpl.
  destruct (path_exists env (base_dir self)) as [[|]|e]; auto.
  destruct (_get_scan_directories env self); reflexivity.
Qed.

Lemma load_handlers_dict self arg :
  fst (load_handlers_of env self arg)
  = to_dict (result (snd (load_handlers_of env self arg))).
Proof. reflexivity. Qed.

(** X14. The counters of the returned dictionary balance: every scanned
    file is counted exactly once as loaded, failed or skipped, and the one
    failure that is not a file is the critical exception of
    [load_handlers] itself, so [loaded + failed + skipped] is
    [total_files], plus one when the run ended in its handler. *)
Theorem loader_counters_balance self arg :
  exists l f s t,
    get "loaded" (fst (load_handlers_of env self arg)) = Some (VInt l) /\
    get "failed" (fst (load_handlers_of env self arg)) = Some (VInt f) /\
    get "skipped" (fst (load_handlers_of env self arg)) = Some (VInt s) /\
    get "total_files" (fst (load_handlers_of env self arg)) = Some (VInt t) /\
    l + f + s = t + (if is_critical env self then 1 else 0) /\
    0 <= l /\ 0 <= f /\ 0 <= s /\ 0 <= t.
Proof.
  assert (H : let r := result (snd (load_handlers_of env self arg)) in
              loaded r + failed r + skipped r
              = scanned r + (if is_critical env self then 1 else 0) /\
              0 <= loaded r /\ 0 <= failed r /\ 0 <= skipped r /\
              0 <= scanned r).
  { rewrite loading_cases. unfold is_critical.
    destruct (path_exists env (base_dir self)) as [[|]|e]; simpl; try lia.
    destruct (_get_scan_directories env self) as [dirs|e]; simpl; try lia.
    destruct (all_dirs_effect self dirs
                (match arg with Some d => d | None => dispatcher self end)
                new_Loading)
      as (H1 & H2 & _ & _ & _ & _ & H7 & H8 & H9).
    unfold surplus in H2. simpl in H1, H2, H7, H8, H9. lia. }
  rewrite load_handlers_dict.
  exists (loaded (result (snd (load_handlers_of env self arg)))),
    (failed (result (snd (load_handlers_of env self arg)))),
    (skipped (result (snd (load_handlers_of env self arg)))),
    (scanned (result (snd (load_handlers_of env self arg)))).
  repeat (split; [reflexivity|]). exact H.
Qed.

(** X15. When the base directory is there and every test of a subdirectory
    answers, the directories scanned are the base directory and then the
    handler directories that exist, each joined to the base, in the order
    given; the files handed to the import machinery are the [*.py] files,
    with names that do not start with an underscore, of those of these
    directories that are under the base directory, directory after
    directory (a directory whose listing raises, or that [relative_to]
    refuses, gives none and stops nothing); and [total_files] is their
    number. *)
Theorem loader_imports_listed_files self arg dirs :
  path_exists env (base_dir self) = Ok true ->
  _get_scan_directories env self = Ok dirs ->
  dirs = base_dir self
         :: map (join_path env (base_dir self))
              (filter (fun d => exists_true env (join_path env (base_dir self) d))
                 (handler_dirs self)) /\
  imported (snd (load_handlers_of env self arg))
  = flat_map (files_of env self) dirs /\
  get "total_files" (fst (load_handlers_of env self arg))
  = Some (VInt (Z.of_nat (length (flat_map (files_of env self) dirs)))).
Proof.
  intros Hbase Hdirs.
  split; [exact (scan_loop_Ok _ _ _ _ Hdirs)|].
  rewrite load_handlers_dict, loading_cases, Hbase, Hdirs.
  destruct (all_dirs_effect self dirs
              (match arg with Some d => d | None => dispatcher self end)
              new_Loading) as (H1 & _ & H3 & _).
  split; [exact H3|]. simpl. now rewrite H1.
Qed.

Lemma files_of_no_underscore self dir :
  Forall (fun file => starts_with_underscore (file_name file) = false)
    (files_of env self dir).
Proof.
  unfold files_of, py_files. destruct (glob_py env dir) as [names|e]; auto.
  destruct (relative_to env dir (base_dir self)); auto.
  apply Forall_forall. intros file Hin.
  apply in_map_iff in Hin as (name & <- & Hin).
  apply filter_In in Hin as [_ Hn]. simpl.
  now apply negb_true_iff in Hn.
Qed.

(** X16. A file whose name starts with an underscore is never handed to the
    import machinery, whatever the directories hold. *)
Theorem loader_never_imports_underscore_files self arg :
  Forall (fun file => starts_with_underscore (file_name file) = false)
    (imported (snd (load_handlers_of env self arg))).
Proof.
  rewrite loading_cases.
  destruct (path_exists env (base_dir self)) as [[|]|e]; simpl; auto.
  destruct (_get_scan_directories env self) as [dirs|e]; simpl; auto.
  destruct (all_dirs_effect self dirs
              (match arg with Some d => d | None => dispatcher self end)
              new_Loading) as (_ & _ & -> & _).
  simpl. clear. induction dirs as [|dir dirs IH]; simpl; auto.
  apply Forall_app. split; auto using files_of_no_underscore.
Qed.

(** X17. [loaded] is the number of routers included, and every router went
    to the dispatcher given to [load_handlers], or to the loader's own when
    none was given. *)
Theorem loader_loaded_counts_included_routers self arg :
  get "loaded" (fst (load_handlers_of env self arg))
  = Some (VInt (Z.of_nat (length (included (snd (load_handlers_of env self arg)))))) /\
  forall d r, In (d, r) (included (snd (load_handlers_of env self arg))) ->
    d = match arg with Some d => d | None => dispatcher self end.
Proof.
  rewrite load_handlers_dict, loading_cases.
  destruct (path_exists env (base_dir self)) as [[|]|e]; simpl;
    try (split; [reflexivity|tauto]).
  destruct (_get_scan_directories env self) as [dirs|e]; simpl;
    try (split; [reflexivity|tauto]).
  destruct (all_dirs_effect self dirs
              (match arg with Some d => d | None => dispatcher self end)
              new_Loading) as (_ & _ & _ & H4 & _ & (rs & H6) & _).
  simpl in H4, H6. split.
  - do 2 f_equal. lia.
  - intros d r. rewrite H6. intros Hin.
    apply in_map_iff in Hin as (r' & [= <- _] & _). reflexivity.
Qed.

(** X18. Every message in [errors] but the one for a missing base directory
    comes with a failure: [errors] is never longer than [failed], plus one
    when the base directory is missing. *)
Theorem loader_errors_come_with_failures self arg :
  let r := result (snd (load_handlers_of env self arg)) in
  get "errors" (fst (load_handlers_of env self arg))
  = Some (VList (map CStr (errors r))) /\
  get "failed" (fst (load_handlers_of env self arg)) = Some (VInt (failed r)) /\
  Z.of_nat (length (errors r))
  <= failed r
     + match path_exists env (base_dir self) with Ok false => 1 | _ => 0 end.
Proof.
  cbv zeta. rewrite load_handlers_dict. split; [reflexivity|].
  split; [reflexivity|].
  rewrite loading_cases.
  destruct (path_exists env (base_dir self)) as [[|]|e]; simpl; try lia.
  destruct (_get_scan_directories env self) as [dirs|e]; simpl; try lia.
  destruct (all_dirs_effect self dirs
              (match arg with Some d => d | None => dispatcher self end)
              new_Loading) as (_ & _ & _ & _ & H5 & _).
  simpl in H5. lia.
Qed.

End Loader.

(** ** The further properties on the sample collaborators *)

Lemma sample_groups_answer n c : exists gs, sample_groups n c = Ok gs.
Proof. destruct n as [|[|[|n]]]; simpl; eauto. Qed.

Lemma header_then_numbered_rows_witness :
  get "EU" (sheets (snd (run scenario_env (init "in.xlsx" sample_headers))))
  = Some (mkWorksheet "Veriler"
            [(0, map CStr sample_headers);
             (1, [CInt 1; CStr "Paris"; CInt 10]);
             (2, [CInt 3; CStr "Paris"; CInt 7])]) /\
  get "EU" (row_counts (snd (run scenario_env (init "in.xlsx" sample_headers))))
  = Some 3.
Proof.
  assert (Hws : get "EU" (sheets (snd (run scenario_env
                                         (init "in.xlsx" sample_headers))))
                = Some (mkWorksheet "Veriler"
                          [(0, map CStr sample_headers);
                           (1, [CInt 1; CStr "Paris"; CInt 10]);
                           (2, [CInt 3; CStr "Paris"; CInt 7])]))
    by (vm_compute; reflexivity).
  split; [exact Hws|].
  exact (proj2 (header_then_numbered_rows _ scenario_env "in.xlsx"
                  sample_headers _ _ "EU" _
                  (surjective_pairing _) Hws)).
Defined.

Lemma sheets_hold_resolved_rows_witness :
  succeeded (fst (run scenario_env (init "in.xlsx" sample_headers))) /\
  sheet_rows (snd (run scenario_env (init "in.xlsx" sample_headers))) "VIP"
  = rows_for scenario_env "VIP" 0 (skipn 1 sample_sheet).
Proof.
  assert (Hs : succeeded (fst (run scenario_env (init "in.xlsx" sample_headers))))
    by (vm_compute; reflexivity).
  split; [exact Hs|].
  exact (sheets_hold_resolved_rows _ scenario_env "in.xlsx" sample_headers
           sample_sheet _ _ "VIP" eq_refl (surjective_pairing _) Hs).
Defined.

Lemma unmatched_keys_characterised_witness :
  succeeded (fst (run scenario_env (init "in.xlsx" sample_headers))) /\
  exists l,
    get "unmatched_cities" (fst (run scenario_env (init "in.xlsx" sample_headers)))
    = Some (VList l) /\
    existsb (cell_eqb (CStr "Lagos")) l = true.
Proof.
  assert (Hs : succeeded (fst (run scenario_env (init "in.xlsx" sample_headers))))
    by (vm_compute; reflexivity).
  split; [exact Hs|].
  destruct (unmatched_keys_characterised _ scenario_env "in.xlsx" sample_headers
              sample_sheet _ _ eq_refl (surjective_pairing _) Hs)
    as (l & Hl & Hk).
  exists l. split; [exact Hl|]. apply Hk.
  exists 1%nat, [CInt 2; CStr "Lagos"; CInt 5]. repeat split.
Defined.

Lemma unmatched_keys_distinct_and_truthy_witness :
  get "unmatched_cities" (fst (run scenario_env (init "in.xlsx" sample_headers)))
  = Some (VList [CStr "Lagos"]) /\
  distinct_cells [CStr "Lagos"] = true /\ forallb truthy [CStr "Lagos"] = true.
Proof.
  assert (H : get "unmatched_cities"
                (fst (run scenario_env (init "in.xlsx" sample_headers)))
              = Some (VList [CStr "Lagos"])) by (vm_compute; reflexivity).
  split; [exact H|].
  exact (unmatched_keys_distinct_and_truthy _ scenario_env "in.xlsx"
           sample_headers _ H).
Defined.

Lemma matched_rows_is_sum_of_stats_witness :
  get "matched_rows" (fst (run scenario_env (init "in.xlsx" sample_headers)))
  = Some (VInt 3) /\
  get "stats" (fst (run scenario_env (init "in.xlsx" sample_headers)))
  = Some (VCounts [("EU", 3); ("VIP", 2)]) /\
  3 = rows_written [("EU", 3); ("VIP", 2)].
Proof.
  assert (H1 : get "matched_rows"
                 (fst (run scenario_env (init "in.xlsx" sample_headers)))
               = Some (VInt 3)) by (vm_compute; reflexivity).
  assert (H2 : get "stats"
                 (fst (run scenario_env (init "in.xlsx" sample_headers)))
               = Some (VCounts [("EU", 3); ("VIP", 2)]))
    by (vm_compute; reflexivity).
  split; [exact H1|]. split; [exact H2|].
  exact (matched_rows_is_sum_of_stats _ scenario_env "in.xlsx" sample_headers
           _ _ _ _ (surjective_pairing _) H1 H2).
Defined.

Lemma matched_rows_counts_writes_witness :
  succeeded (fst (run scenario_env (init "in.xlsx" sample_headers))) /\
  destinations scenario_env 0 (skipn 1 sample_sheet) = 3 /\
  get "matched_rows" (fst (run scenario_env (init "in.xlsx" sample_headers)))
  = Some (VInt (destinations scenario_env 0 (skipn 1 sample_sheet))).
Proof.
  assert (Hs : succeeded (fst (run scenario_env (init "in.xlsx" sample_headers))))
    by (vm_compute; reflexivity).
  split; [exact Hs|]. split; [reflexivity|].
  exact (matched_rows_counts_writes _ scenario_env "in.xlsx" sample_headers
           sample_sheet _ _ eq_refl (surjective_pairing _) Hs).
Defined.

Lemma writers_only_for_listed_groups_witness :
  succeeded (fst (run scenario_env (init "in.xlsx" sample_headers))) /\
  (mem "VIP" (writers (snd (run scenario_env (init "in.xlsx" sample_headers))))
   = true <->
   0 < listings scenario_env "VIP" 0 (skipn 1 sample_sheet)).
Proof.
  assert (Hs : succeeded (fst (run scenario_env (init "in.xlsx" sample_headers))))
    by (vm_compute; reflexivity).
  assert (Hfs : get "output_files"
                  (fst (run scenario_env (init "in.xlsx" sample_headers)))
                = Some (VFiles [("EU", mkFileDesc "EU.xlsx" "out/EU.xlsx" 2);
                                ("VIP", mkFileDesc "VIP.xlsx" "out/VIP.xlsx" 1)]))
    by (vm_compute; reflexivity).
  split; [exact Hs|].
  exact (proj1 (writers_only_for_listed_groups _ scenario_env "in.xlsx"
                  sample_headers sample_sheet _ _ _ eq_refl
                  (surjective_pairing _) Hs Hfs) "VIP").
Defined.

Lemma failed_run_closes_nothing_witness :
  ~ succeeded (fst (run disk_full_env (init "in.xlsx" sample_headers))) /\
  mem "EU" (writers (snd (run disk_full_env (init "in.xlsx" sample_headers))))
  = true /\
  forall g,
    ~ In (EvClose g)
        (calls (snd (run disk_full_env (init "in.xlsx" sample_headers)))).
Proof.
  assert (Hs : ~ succeeded (fst (run disk_full_env
                                   (init "in.xlsx" sample_headers))))
    by (vm_compute; discriminate).
  split; [exact Hs|]. split; [vm_compute; reflexivity|].
  exact (proj2 (failed_run_closes_nothing _ disk_full_env "in.xlsx"
                  sample_headers _ _ (surjective_pairing _) Hs)).
Defined.

Lemma one_lookup_per_row_witness :
  exists k,
    filter is_lookup
      (calls (snd (run scenario_env (init "in.xlsx" sample_headers))))
    = map (fun row => EvLookup (city_of row)) (firstn k (skipn 1 sample_sheet)).
Proof.
  destruct (one_lookup_per_row _ scenario_env "in.xlsx" sample_headers
              sample_sheet _ _ eq_refl (surjective_pairing _))
    as (k & Hk & _).
  exists k. exact Hk.
Defined.

Lemma output_files_are_closed_writers_witness :
  succeeded (fst (run stuck_close_env (init "in.xlsx" sample_headers))) /\
  (mem "EU" [("VIP", mkFileDesc "VIP.xlsx" "out/VIP.xlsx" 1)] = true <->
   mem "EU" (writers (snd (run stuck_close_env (init "in.xlsx" sample_headers))))
   = true /\ wb_close stuck_close_env "EU" = Ok tt).
Proof.
  assert (Hs : succeeded (fst (run stuck_close_env
                                 (init "in.xlsx" sample_headers))))
    by (vm_compute; reflexivity).
  assert (Hfs : get "output_files"
                  (fst (run stuck_close_env (init "in.xlsx" sample_headers)))
                = Some (VFiles [("VIP", mkFileDesc "VIP.xlsx" "out/VIP.xlsx" 1)]))
    by (vm_compute; reflexivity).
  split; [exact Hs|].
  exact (proj1 (output_files_are_closed_writers _ stuck_close_env "in.xlsx"
                  sample_headers _ _ _ "EU" (surjective_pairing _) Hs Hfs)).
Defined.

Lemma workbooks_closed_once_in_order_witness :
  succeeded (fst (run scenario_env (init "in.xlsx" sample_headers))) /\
  keys (writers (snd (run scenario_env (init "in.xlsx" sample_headers))))
  = ["EU"; "VIP"] /\
  filter is_close (calls (snd (run scenario_env (init "in.xlsx" sample_headers))))
  = map EvClose
      (keys (writers (snd (run scenario_env (init "in.xlsx" sample_headers))))).
Proof.
  assert (Hs : succeeded (fst (run scenario_env (init "in.xlsx" sample_headers))))
    by (vm_compute; reflexivity).
  split; [exact Hs|]. split; [vm_compute; reflexivity|].
  exact (proj1 (workbooks_closed_once_in_order _ scenario_env "in.xlsx"
                  sample_headers _ _ (surjective_pairing _) Hs)).
Defined.

Lemma reliable_run_succeeds_witness :
  writers_reliable scenario_env /\
  succeeded (split_excel_by_groups scenario_env "in.xlsx" sample_headers).
Proof.
  split; [exact scenario_env_reliable|].
  exact (reliable_run_succeeds _ scenario_env "in.xlsx" sample_headers
           sample_sheet scenario_env_reliable sample_groups_answer
           eq_refl eq_refl eq_refl).
Defined.

Lemma failed_dispatch_counts_nothing_witness :
  fst (dispatch disk_full_env [CInt 1; CStr "Paris"; CInt 10] "EU"
         (init "in.xlsx" sample_headers))
  = Raise (mkExn "disk full") /\
  matched_rows
    (snd (dispatch disk_full_env [CInt 1; CStr "Paris"; CInt 10] "EU"
            (init "in.xlsx" sample_headers)))
  = matched_rows (init "in.xlsx" sample_headers).
Proof.
  split; [vm_compute; reflexivity|].
  refine (proj1 (failed_dispatch_counts_nothing _ disk_full_env
                   [CInt 1; CStr "Paris"; CInt 10] "EU"
                   (init "in.xlsx" sample_headers) (mkExn "disk full") _
                   (consistent_init _ _) _)).
  vm_compute. reflexivity.
Defined.

Lemma loader_imports_listed_files_witness :
  path_exists sample_loader_env "handlers" = Ok true /\
  _get_scan_directories sample_loader_env sample_loader
  = Ok ["handlers"; "handlers/commands"; "handlers/admin"; "/opt/plugins"] /\
  imported (snd (load_handlers_of sample_loader_env sample_loader None))
  = [ mkHandlerFile "handlers" "start.py";
      mkHandlerFile "handlers/commands" "help.py";
      mkHandlerFile "handlers/commands" "broken.py";
      mkHandlerFile "handlers/commands" "plain.py" ] /\
  imported (snd (load_handlers_of sample_loader_env sample_loader None))
  = flat_map (files_of sample_loader_env sample_loader)
      ["handlers"; "handlers/commands"; "handlers/admin"; "/opt/plugins"].
Proof.
  split; [reflexivity|]. split; [reflexivity|]. split; [reflexivity|].
  refine (proj1 (proj2 (loader_imports_listed_files sample_loader_env
                          sample_loader None _ _ _)));
    vm_compute; reflexivity.
Defined.

Lemma row_count_counts_resolved_rows_witness :
  succeeded (fst (run stuck_close_env (init "in.xlsx" sample_headers))) /\
  rows_resolving_to stuck_close_env "VIP" 0 (skipn 1 sample_sheet) = 1 /\
  (mem "VIP" [("VIP", mkFileDesc "VIP.xlsx" "out/VIP.xlsx" 1)] = true <->
   0 < rows_resolving_to stuck_close_env "VIP" 0 (skipn 1 sample_sheet) /\
   wb_close stuck_close_env "VIP" = Ok tt) /\
  (forall d,
     get "VIP" [("VIP", mkFileDesc "VIP.xlsx" "out/VIP.xlsx" 1)] = Some d ->
     row_count d = rows_resolving_to stuck_close_env "VIP" 0 (skipn 1 sample_sheet) /\
     Z.of_nat (length (sheet_rows
                         (snd (run stuck_close_env (init "in.xlsx" sample_headers)))
                         "VIP"))
     = row_count d).
Proof.
  assert (Hs : succeeded (fst (run stuck_close_env
                                 (init "in.xlsx" sample_headers))))
    by (vm_compute; reflexivity).
  assert (Hfs : get "output_files"
                  (fst (run stuck_close_env (init "in.xlsx" sample_headers)))
                = Some (VFiles [("VIP", mkFileDesc "VIP.xlsx" "out/VIP.xlsx" 1)]))
    by (vm_compute; reflexivity).
  split; [exact Hs|]. split; [vm_compute; reflexivity|].
  destruct (row_count_counts_resolved_rows _ stuck_close_env "in.xlsx"
              sample_headers sample_sheet _ _ _ "VIP"
              sample_groups_sets eq_refl (surjective_pairing _) Hs Hfs)
    as (H1 & H2 & _).
  split; assumption.
Defined.

Lemma missing_key_row_witness :
  truthy (city_of [CInt 7]) = false /\
  _process_row no_group_env [CInt 7] (init "in.xlsx" sample_headers)
  = (Ok tt, logged [EvLookup CNone] (init "in.xlsx" sample_headers)) /\
  sheet_rows
    (snd (_process_row catch_all_env [CInt 7] (init "in.xlsx" sample_headers)))
    "ALL"
  = [[CInt 7]].
Proof.
  split; [reflexivity|]. split.
  - apply (proj1 (proj2 (proj2 (proj2
             (missing_key_row _ no_group_env [CInt 7]
                (init "in.xlsx" sample_headers) eq_refl))))).
    reflexivity.
  - refine (proj1 (proj1 (proj2 (proj2
             (missing_key_row _ catch_all_env [CInt 7]
                (init "in.xlsx" sample_headers) eq_refl)))
             ["ALL"] _ (consistent_init _ _) eq_refl _ "ALL"));
      vm_compute; reflexivity.
Defined.

(** C4 does not hold as stated.  The resolver answers with sets and the run
    ends in success; two rows resolve to EU and both are written to its
    sheet; but the workbook of EU does not close, and [output_files] has no
    entry for EU, so no [row_count] for it. *)
Lemma row_count_missing_when_close_fails :
  succeeded (split_excel_by_groups stuck_close_env "in.xlsx" sample_headers) /\
  rows_resolving_to stuck_close_env "EU" 0 (skipn 1 sample_sheet) = 2 /\
  sheet_rows (snd (run stuck_close_env (init "in.xlsx" sample_headers))) "EU"
  = [[CInt 1; CStr "Paris"; CInt 10]; [CInt 3; CStr "Paris"; CInt 7]] /\
  get "output_files"
    (split_excel_by_groups stuck_close_env "in.xlsx" sample_headers)
  = Some (VFiles [("VIP", mkFileDesc "VIP.xlsx" "out/VIP.xlsx" 1)]) /\
  get "EU" [("VIP", mkFileDesc "VIP.xlsx" "out/VIP.xlsx" 1)] = None /\
  get "stats" (split_excel_by_groups stuck_close_env "in.xlsx" sample_headers)
  = Some (VCounts [("EU", 3); ("VIP", 2)]).
Proof. repeat split; vm_compute; reflexivity. Qed.
